(** * Edge traffic manager: health scoring, origin selection and cache
      admission, embedded from the JavaScript sources.

    Conventions of the embedding.
    - JavaScript numbers are modelled exactly: integral quantities
      (timestamps in milliseconds, connection counts, status codes, rounded
      scores) as [Z], fractional ones (weights, rates, latencies, the draws
      of [Math.random]) as [Q].  Rounding error of IEEE doubles, [NaN] and
      the infinities are outside the model.
    - [Date.now()] is a parameter [now] of every operation that reads the
      clock: one call of an operation observes one clock value.
    - [Math.random()] is a parameter [rnd] of every operation that draws.
    - A [Map] keyed by strings whose iteration order is never observed is a
      [gmap]; the health checker's [metrics] map is iterated, so it is an
      association list in insertion order.
    - A method that may throw, and may have mutated [this] before throwing,
      is a function from the state to a result and the state left behind. *)

From Stdlib Require Import ZArith QArith Qround Qminmax Lqa String Ascii List Lia Bool.
From Stdlib Require Import Sorted Permutation.
From stdpp Require Import base option list gmap strings.
Import ListNotations.

Local Open Scope string_scope.
Local Open Scope Z_scope.

(** ** JavaScript values and built-ins used by the sources *)

Module Js.

(** What a [throw] carries. *)
Inductive error : Type :=
  | ReferenceError (identifier : string)
  | TypeError (message : string)
  | Error (message : string).

(** Outcome of evaluating an expression or a call. *)
Inductive result (A : Type) : Type :=
  | Ok (value : A)
  | Throw (e : error).
Arguments Ok {A} value.
Arguments Throw {A} e.

Definition is_ok {A} (r : result A) : bool :=
  match r with Ok _ => true | Throw _ => false end.

(** Resolution of an identifier of type [A] inside a method body.  The
    modules declare nothing at top level besides their class and the global
    object has no property of the names looked up here, so the only bindings
    in scope are the method's own parameters, listed under the names the
    source gives them; reading any other identifier throws. *)
Fixpoint resolve {A} (scope : list (string * A)) (x : string) : result A :=
  match scope with
  | [] => Throw (ReferenceError x)
  | (y, v) :: rest => if String.eqb x y then Ok v else resolve rest x
  end.

(** Truthiness of a string-or-undefined value. *)
Definition truthy_str (v : option string) : bool :=
  match v with
  | Some s => negb (String.eqb s "")
  | None => false
  end.

(** [v || d] on string-or-undefined values. *)
Definition or_str (v : option string) (d : option string) : option string :=
  if truthy_str v then v else d.

(** [v || d] where [v] is a number or undefined and [d] a number. *)
Definition or_Z (v : option Z) (d : Z) : Z :=
  match v with
  | Some n => if n =? 0 then d else n
  | None => d
  end.

Definition or_Q (v : option Q) (d : Q) : Q :=
  match v with
  | Some q => if Qeq_bool q 0 then d else q
  | None => d
  end.

(** Comparisons on exact numbers, as booleans. *)
Definition Qlt_bool (a b : Q) : bool := negb (Qle_bool b a).
Definition Qgt_bool (a b : Q) : bool := Qlt_bool b a.
Definition Qge_bool (a b : Q) : bool := Qle_bool b a.

(** [Math.round]: nearest integer, ties towards plus infinity. *)
Definition Math_round (q : Q) : Z := Qfloor (q + (1 # 2)).

(** [Math.floor]. *)
Definition Math_floor (q : Q) : Z := Qfloor q.

(** [Math.max] on two exact numbers. *)
Definition Math_max (a b : Q) : Q := if Qle_bool a b then b else a.

(** [Array.prototype.includes] on an array of strings. *)
Definition includes_arr (l : list string) (x : string) : bool :=
  existsb (String.eqb x) l.

(** [String.prototype.startsWith]. *)
Definition startsWith (s p : string) : bool := String.prefix p s.

(** [String.prototype.includes]. *)
Fixpoint includes (s sub : string) : bool :=
  if String.prefix sub s then true
  else match s with
       | EmptyString => false
       | String _ rest => includes rest sub
       end.

(** *** [parseInt] with no radix argument

    Leading white space is skipped (the ASCII white space, which is what a
    header value can start with), then an optional sign, then an optional
    [0x] prefix selecting radix 16, then the longest run of digits. *)

Definition is_space (c : ascii) : bool :=
  let n := nat_of_ascii c in
  ((9 <=? n) && (n <=? 13))%nat || (n =? 32)%nat.

Fixpoint skip_spaces (s : string) : string :=
  match s with
  | String c rest => if is_space c then skip_spaces rest else s
  | EmptyString => s
  end.

(** Value of a character as a digit in the given radix, if it is one. *)
Definition digit_of (radix : Z) (c : ascii) : option Z :=
  let n := Z.of_nat (nat_of_ascii c) in
  let d := if (48 <=? n) && (n <=? 57) then Some (n - 48)
           else if (97 <=? n) && (n <=? 122) then Some (n - 87)
           else if (65 <=? n) && (n <=? 90) then Some (n - 55)
           else None in
  match d with
  | Some v => if v <? radix then Some v else None
  | None => None
  end.

(** Longest prefix of digits, accumulated; [None] when there is no digit. *)
Fixpoint digits (radix : Z) (acc : option Z) (s : string) : option Z :=
  match s with
  | String c rest =>
      match digit_of radix c with
      | Some d => digits radix (Some (or_Z acc 0 * radix + d)) rest
      | None => acc
      end
  | EmptyString => acc
  end.

(** [parseInt(s)]: [None] stands for [NaN]. *)
Definition parseInt (s : string) : option Z :=
  let s1 := skip_spaces s in
  let '(sign, s2) :=
    match s1 with
    | String "-" rest => (-1, rest)
    | String "+" rest => (1, rest)
    | _ => (1, s1)
    end in
  let '(radix, s3) :=
    match s2 with
    | String "0" (String "x" rest) => (16, rest)
    | String "0" (String "X" rest) => (16, rest)
    | _ => (10, s2)
    end in
  match digits radix None s3 with
  | Some n => Some (sign * n)
  | None => None
  end.

End Js.
Import Js.


(** ** The health checker (class [HealthChecker]) *)

Module HealthChecker.

(** [health.checks] *)
Record Checks : Type := {
  connectivity : bool;
  responseTimeOk : bool;
  statusCode : bool;
  ssl : bool
}.

(** The [health] object built by [checkOriginHealth]. *)
Record Health : Type := {
  healthy : bool;
  responseTime : option Z;
  error : option string;
  timestamp : Z;
  checks : Checks
}.

(** An entry of [healthCache]: [{ health, timestamp }]. *)
Record Cached : Type := {
  health : Health;
  cachedAt : Z
}.

(** An entry of [metrics.errors]. *)
Record ErrorEntry : Type := {
  errTimestamp : Z;
  errError : option string;
  errChecks : Checks
}.

(** A value of the [metrics] map.  The three derived fields are assigned by
    [updateOriginMetrics] before the object can be observed. *)
Record Metrics : Type := {
  totalChecks : Z;
  successfulChecks : Z;
  totalResponseTime : Z;
  errors : list ErrorEntry;
  lastCheck : option Z;
  lastSuccess : option Z;
  lastError : option string;
  successRate : Q;
  averageResponseTime : Q;
  errorRate : Q
}.

(** [this.healthThresholds] *)
Record Thresholds : Type := {
  thResponseTime : Q;
  thSuccessRate : Q;
  thErrorThreshold : Q
}.

(** The fields of a [HealthChecker] instance. *)
Record t : Type := {
  checkInterval : Z;
  timeout : Z;
  healthThresholds : Thresholds;
  healthCache : gmap string Cached;
  metrics : list (string * Metrics)
}.

(** [constructor(config)], from [config.MONITORING_INTERVAL] and
    [config.FAILOVER_TIMEOUT]. *)
Definition new (MONITORING_INTERVAL FAILOVER_TIMEOUT : option Z) : t := {|
  checkInterval := or_Z MONITORING_INTERVAL 30000;
  timeout := or_Z FAILOVER_TIMEOUT 5000;
  healthThresholds :=
    {| thResponseTime := 2000; thSuccessRate := 95 # 100; thErrorThreshold := 1 # 10 |};
  healthCache := ∅;
  metrics := []
|}.

(** The key under which an origin's snapshot is cached. *)
Definition cacheKey (origin : string) : string := "health:" +:+ origin.

(** [this.metrics.get(origin)] *)
Fixpoint metrics_get (ms : list (string * Metrics)) (origin : string) : option Metrics :=
  match ms with
  | [] => None
  | (o, m) :: rest => if String.eqb o origin then Some m else metrics_get rest origin
  end.

(** [this.metrics.set(origin, m)]: an existing key keeps its position, a new
    key goes last. *)
Fixpoint metrics_set (ms : list (string * Metrics)) (origin : string) (m : Metrics)
  : list (string * Metrics) :=
  match ms with
  | [] => [(origin, m)]
  | (o, m') :: rest =>
      if String.eqb o origin then (o, m) :: rest
      else (o, m') :: metrics_set rest origin m
  end.

Definition getOriginMetrics (hc : t) (origin : string) : option Metrics :=
  metrics_get (metrics hc) origin.

(** The object literal a first [updateOriginMetrics] starts from. *)
Definition freshMetrics : Metrics := {|
  totalChecks := 0; successfulChecks := 0; totalResponseTime := 0;
  errors := []; lastCheck := None; lastSuccess := None; lastError := None;
  successRate := 0; averageResponseTime := 0; errorRate := 0
|}.

(** [errors.slice(-10)] *)
Definition slice_last (n : nat) {A} (l : list A) : list A :=
  skipn (length l - n)%nat l.

(** [updateOriginMetrics(origin, health)] *)
Definition updateOriginMetrics (now : Z) (origin : string) (h : Health) (hc : t) : t :=
  let m := match metrics_get (metrics hc) origin with
           | Some m => m
           | None => freshMetrics
           end in
  let total := totalChecks m + 1 in
  let successful := if healthy h then successfulChecks m + 1 else successfulChecks m in
  let errs :=
    if healthy h then errors m
    else
      let pushed := (errors m ++
        [{| errTimestamp := now; errError := error h; errChecks := checks h |}])%list in
      if (10 <? length pushed)%nat then slice_last 10 pushed else pushed in
  let totalRT :=
    match responseTime h with
    | Some rt => if rt =? 0 then totalResponseTime m else totalResponseTime m + rt
    | None => totalResponseTime m
    end in
  let rate := (inject_Z successful / inject_Z total)%Q in
  let m' := {|
    totalChecks := total;
    successfulChecks := successful;
    totalResponseTime := totalRT;
    errors := errs;
    lastCheck := Some now;
    lastSuccess := if healthy h then Some now else lastSuccess m;
    lastError := if healthy h then lastError m
                 else or_str (error h) (Some "Health check failed");
    successRate := rate;
    averageResponseTime := (inject_Z totalRT / inject_Z total)%Q;
    errorRate := (1 - rate)%Q
  |} in
  {| checkInterval := checkInterval hc; timeout := timeout hc;
     healthThresholds := healthThresholds hc; healthCache := healthCache hc;
     metrics := metrics_set (metrics hc) origin m' |}.

(** [calculateHealthScore(metrics)] *)
Definition calculateHealthScore (hc : t) (now : Z) (m : Metrics) : Z :=
  if totalChecks m =? 0 then 0
  else
    let successWeight := (4 # 10)%Q in
    let responseTimeWeight := (3 # 10)%Q in
    let recentHealthWeight := (3 # 10)%Q in
    let successScore := (successRate m * 100)%Q in
    let avgResponseTime := or_Q (Some (averageResponseTime m)) 0 in
    let responseScore :=
      Math_max 0 (100 - (avgResponseTime / thResponseTime (healthThresholds hc)) * 100)%Q in
    let recentErrors :=
      length (List.filter (fun e => now - errTimestamp e <? checkInterval hc * 5) (errors m)) in
    let recentScore := Math_max 0 (100 - inject_Z (Z.of_nat recentErrors * 20))%Q in
    let healthScore :=
      (successScore * successWeight +
       responseScore * responseTimeWeight +
       recentScore * recentHealthWeight)%Q in
    Math_round healthScore.

(** [getOriginStatus(metrics)] *)
Definition getOriginStatus (hc : t) (now : Z) (m : Metrics) : string :=
  let healthScore := calculateHealthScore hc now m in
  if 90 <=? healthScore then "excellent"
  else if 75 <=? healthScore then "good"
  else if 50 <=? healthScore then "fair"
  else if 25 <=? healthScore then "poor"
  else "critical".

(** An element of the array [getOriginsByHealth] returns. *)
Record Ranked : Type := {
  origin : string;
  healthScore : Z;
  status : string
}.

(** [Array.prototype.sort] with the comparator
    [(a, b) => b.healthScore - a.healthScore]: stable, descending. *)
Fixpoint insert_desc (x : Ranked) (l : list Ranked) : list Ranked :=
  match l with
  | [] => [x]
  | y :: rest =>
      if healthScore x <=? healthScore y then y :: insert_desc x rest
      else x :: y :: rest
  end.

Definition sort_desc (l : list Ranked) : list Ranked :=
  fold_left (fun acc x => insert_desc x acc) l [].

(** [getOriginsByHealth()] *)
Definition getOriginsByHealth (hc : t) (now : Z) : list Ranked :=
  sort_desc
    (map (fun '(o, m) =>
            {| origin := o;
               healthScore := calculateHealthScore hc now m;
               status := getOriginStatus hc now m |})
         (metrics hc)).

(** [isOriginHealthy(origin)] *)
Definition isOriginHealthy (hc : t) (now : Z) (origin : string) : bool :=
  match healthCache hc !! cacheKey origin with
  | None => false
  | Some cached =>
      if now - cachedAt cached >? checkInterval hc * 2 then false
      else healthy (health cached)
  end.

(** Outcome of the four probes of one [checkOriginHealth]: for each promise
    [Some v] when it fulfilled with [v], [None] when it rejected. *)
Record Probes : Type := {
  pConnectivity : option bool;
  pResponseTime : option bool;
  pStatusCode : option bool;
  pSSL : option bool
}.

(** [results[i].status === 'fulfilled' && results[i].value] *)
Definition settled (r : option bool) : bool :=
  match r with Some v => v | None => false end.

(** [checkOriginHealth(origin)], started at [now] with the probes settling
    [elapsed] milliseconds later. *)
Definition checkOriginHealth (now elapsed : Z) (probes : Probes) (o : string) (hc : t)
  : Health * t :=
  let recent :=
    match healthCache hc !! cacheKey o with
    | Some c =>
        if Qlt_bool (inject_Z (now - cachedAt c)) (inject_Z (checkInterval hc) / 2)%Q
        then Some (health c) else None
    | None => None
    end in
  match recent with
  | Some h => (h, hc)
  | None =>
      let cs := {| connectivity := settled (pConnectivity probes);
                   responseTimeOk := settled (pResponseTime probes);
                   statusCode := settled (pStatusCode probes);
                   ssl := settled (pSSL probes) |} in
      let passedChecks :=
        length (List.filter (fun b : bool => b)
                  [connectivity cs; responseTimeOk cs; statusCode cs; ssl cs]) in
      let h := {| healthy := (3 <=? passedChecks)%nat; responseTime := Some elapsed;
                  error := None; timestamp := now; checks := cs |} in
      let hc1 := {| checkInterval := checkInterval hc; timeout := timeout hc;
                    healthThresholds := healthThresholds hc;
                    healthCache := <[cacheKey o := {| health := h; cachedAt := now + elapsed |}]>
                                     (healthCache hc);
                    metrics := metrics hc |} in
      (h, updateOriginMetrics (now + elapsed) o h hc1)
  end.

(** [getHealthiestOrigin()]: the [forEach] keeps [(bestOrigin, bestScore)],
    started at [(null, -1)]. *)
Definition getHealthiestOrigin (hc : t) (now : Z) : option string :=
  fst (fold_left
         (fun '(bestOrigin, bestScore) '(o, m) =>
            let score := calculateHealthScore hc now m in
            if score >? bestScore then (Some o, score) else (bestOrigin, bestScore))
         (metrics hc) (None, -1)).

(** [metrics.errors = ...] on one metrics object. *)
Definition set_errors (errs : list ErrorEntry) (m : Metrics) : Metrics :=
  {| totalChecks := totalChecks m; successfulChecks := successfulChecks m;
     totalResponseTime := totalResponseTime m; errors := errs;
     lastCheck := lastCheck m; lastSuccess := lastSuccess m; lastError := lastError m;
     successRate := successRate m; averageResponseTime := averageResponseTime m;
     errorRate := errorRate m |}.

(** [cleanup()] *)
Definition cleanup (now : Z) (hc : t) : t :=
  let maxAge := checkInterval hc * 5 in
  {| checkInterval := checkInterval hc; timeout := timeout hc;
     healthThresholds := healthThresholds hc;
     healthCache :=
       filter (fun kv : string * Cached => ~ (now - cachedAt (snd kv) > maxAge))
         (healthCache hc);
     metrics :=
       map (fun '(o, m) =>
              (o, set_errors
                    (List.filter (fun e => now - errTimestamp e <? 24 * 60 * 60 * 1000)
                       (errors m)) m))
         (metrics hc) |}.

(** One probe round of the prober's schedule: the origin probed, when the
    round starts, how long the probes take to settle, and how they settle. *)
Record Round : Type := {
  roundOrigin : string;
  roundStart : Z;
  roundElapsed : Z;
  roundProbes : Probes
}.

(** The checker after a sequence of probe rounds. *)
Definition probeAll (rounds : list Round) (hc : t) : t :=
  fold_left
    (fun acc r =>
       snd (checkOriginHealth (roundStart r) (roundElapsed r) (roundProbes r)
              (roundOrigin r) acc))
    rounds hc.

End HealthChecker.

(** ** The load balancer (class [LoadBalancer]) *)

Module LoadBalancer.

(** The request context, as far as the load balancer reads it. *)
Record Context : Type := {
  edgeColo : option string;
  country : option string;
  isFailover : bool
}.

(** An element of a latency history: [{ latency, timestamp }]. *)
Record Sample : Type := {
  latency : Q;
  timestamp : Z
}.

(** The fields of a [LoadBalancer] instance, the health checker apart: the
    balancer only calls the checker's read-only methods, so the checker's
    state is an argument of the operations that consult it. *)
Record t : Type := {
  origins : list string;
  currentAlgorithm : string;
  roundRobinIndex : nat;
  connectionCounts : gmap string Z;
  latencyHistory : gmap string (list Sample);
  weights : gmap string Q;
  geographicMapping : gmap string (option string)
}.

(** [this.algorithms] *)
Definition ROUND_ROBIN : string := "round_robin".
Definition LEAST_CONNECTIONS : string := "least_connections".
Definition WEIGHTED_ROUND_ROBIN : string := "weighted_round_robin".
Definition LATENCY_BASED : string := "latency_based".
Definition GEOGRAPHIC : string := "geographic".
Definition HEALTH_SCORE : string := "health_score".

(** [Object.values(this.algorithms)] *)
Definition algorithms : list string :=
  [ROUND_ROBIN; LEAST_CONNECTIONS; WEIGHTED_ROUND_ROBIN; LATENCY_BASED; GEOGRAPHIC;
   HEALTH_SCORE].

(** Field updates. *)
Definition set_currentAlgorithm (a : string) (lb : t) : t :=
  {| origins := origins lb; currentAlgorithm := a; roundRobinIndex := roundRobinIndex lb;
     connectionCounts := connectionCounts lb; latencyHistory := latencyHistory lb;
     weights := weights lb; geographicMapping := geographicMapping lb |}.

Definition set_roundRobinIndex (i : nat) (lb : t) : t :=
  {| origins := origins lb; currentAlgorithm := currentAlgorithm lb; roundRobinIndex := i;
     connectionCounts := connectionCounts lb; latencyHistory := latencyHistory lb;
     weights := weights lb; geographicMapping := geographicMapping lb |}.

Definition set_connectionCounts (c : gmap string Z) (lb : t) : t :=
  {| origins := origins lb; currentAlgorithm := currentAlgorithm lb;
     roundRobinIndex := roundRobinIndex lb;
     connectionCounts := c; latencyHistory := latencyHistory lb;
     weights := weights lb; geographicMapping := geographicMapping lb |}.

Definition set_latencyHistory (h : gmap string (list Sample)) (lb : t) : t :=
  {| origins := origins lb; currentAlgorithm := currentAlgorithm lb;
     roundRobinIndex := roundRobinIndex lb;
     connectionCounts := connectionCounts lb; latencyHistory := h;
     weights := weights lb; geographicMapping := geographicMapping lb |}.

Definition set_weights (w : gmap string Q) (lb : t) : t :=
  {| origins := origins lb; currentAlgorithm := currentAlgorithm lb;
     roundRobinIndex := roundRobinIndex lb;
     connectionCounts := connectionCounts lb; latencyHistory := latencyHistory lb;
     weights := w; geographicMapping := geographicMapping lb |}.

Definition set_geographicMapping (g : gmap string (option string)) (lb : t) : t :=
  {| origins := origins lb; currentAlgorithm := currentAlgorithm lb;
     roundRobinIndex := roundRobinIndex lb;
     connectionCounts := connectionCounts lb; latencyHistory := latencyHistory lb;
     weights := weights lb; geographicMapping := g |}.

(** *** Methods as state transformers that may throw *)

Definition M (A : Type) : Type := t -> result A * t.

Definition ret {A} (a : A) : M A := fun lb => (Ok a, lb).

Definition bind {A B} (m : M A) (k : A -> M B) : M B := fun lb =>
  match m lb with
  | (Ok a, lb') => k a lb'
  | (Throw e, lb') => (Throw e, lb')
  end.

Definition throw {A} (e : error) : M A := fun lb => (Throw e, lb).

(** Evaluation of an expression that reads no field. *)
Definition lift {A} (r : result A) : M A := fun lb => (r, lb).

(** Read the instance, or replace it. *)
Definition this : M t := fun lb => (Ok lb, lb).
Definition modify (f : t -> t) : M unit := fun lb => (Ok tt, f lb).

Declare Scope lb_scope.
Delimit Scope lb_scope with lb.
Notation "x <- m ;; k" := (bind m (fun x => k))
  (at level 100, m at next level, right associativity) : lb_scope.
Notation "m ;;; k" := (bind m (fun _ => k))
  (at level 100, right associativity) : lb_scope.
Local Open Scope lb_scope.

(** *** Construction *)

(** [initializeWeights()] *)
Definition initializeWeights (lb : t) : t :=
  fold_left
    (fun acc origin =>
       set_connectionCounts (<[origin := 0]> (connectionCounts acc))
         (set_weights (<[origin := 1%Q]> (weights acc)) acc))
    (origins lb) lb.

(** [initializeGeographicMapping()]: [this.origins[i]] is undefined, here
    [None], when fewer than [i + 1] origins are configured. *)
Definition initializeGeographicMapping (lb : t) : t :=
  let o (i : nat) : option string := origins lb !! i in
  set_geographicMapping
    (<["NRT" := o 1%nat]> (<["LHR" := o 2%nat]> (<["JFK" := o 0%nat]>
      (<["DFW" := o 1%nat]> (<["LAX" := o 0%nat]> (geographicMapping lb))))))
    lb.

(** [constructor(origins, healthChecker)]; [None] is an undefined first
    argument. *)
Definition new (origins0 : option (list string)) : t :=
  initializeGeographicMapping
    (initializeWeights
       {| origins := match origins0 with Some l => l | None => [] end;
          currentAlgorithm := HEALTH_SCORE;
          roundRobinIndex := 0;
          connectionCounts := ∅;
          latencyHistory := ∅;
          weights := ∅;
          geographicMapping := ∅ |}).

(** *** Selection *)

(** [getHealthyOrigins()] *)
Definition getHealthyOrigins (hc : HealthChecker.t) (now : Z) (lb : t) : list string :=
  List.filter (HealthChecker.isOriginHealthy hc now) (origins lb).

(** [roundRobin(origins)] *)
Definition roundRobin (origins : list string) : M (option string) :=
  lb <- this ;;
  let origin := origins !! (roundRobinIndex lb mod length origins)%nat in
  modify (set_roundRobinIndex (S (roundRobinIndex lb))) ;;;
  ret origin.

(** The loop of [leastConnections]: the pair is
    [(selectedOrigin, minConnections)]. *)
Definition leastConnections_loop (counts : gmap string Z) (origins : list string)
    (start : string * Z) : string * Z :=
  fold_left
    (fun '(selectedOrigin, minConnections) origin =>
       let connections := or_Z (counts !! origin) 0 in
       if connections <? minConnections then (origin, connections)
       else (selectedOrigin, minConnections))
    origins start.

(** [leastConnections(origins)].  On an empty array the source selects
    [undefined] and counts a connection under that key, which no origin
    reads; the entry is not kept here. *)
Definition leastConnections (origins : list string) : M (option string) :=
  lb <- this ;;
  match origins with
  | [] => ret None
  | first :: _ =>
      let '(selectedOrigin, minConnections) :=
        leastConnections_loop (connectionCounts lb) origins
          (first, or_Z (connectionCounts lb !! first) 0) in
      modify (set_connectionCounts
                (<[selectedOrigin := minConnections + 1]> (connectionCounts lb))) ;;;
      ret (Some selectedOrigin)
  end.

(** [this.weights.get(origin) || 1] *)
Definition weightOf (lb : t) (origin : string) : Q := or_Q (weights lb !! origin) 1.

(** The [reduce] of [weightedRoundRobin]. *)
Definition totalWeight (lb : t) (origins : list string) : Q :=
  fold_left (fun sum origin => (sum + weightOf lb origin)%Q) origins 0%Q.

(** The value of [currentWeight] once the loop has gone through the origins
    of [l], having started from [acc]. *)
Definition currentWeightAfter (lb : t) (l : list string) (acc : Q) : Q :=
  fold_left (fun sum origin => (sum + weightOf lb origin)%Q) l acc.

(** The loop of [weightedRoundRobin]: [Some origin] when the loop returns
    at [origin], [None] when it runs to the end. *)
Fixpoint weightedRoundRobin_loop (lb : t) (random currentWeight : Q) (origins : list string)
  : option string :=
  match origins with
  | [] => None
  | origin :: rest =>
      let currentWeight := (currentWeight + weightOf lb origin)%Q in
      if Qle_bool random currentWeight then Some origin
      else weightedRoundRobin_loop lb random currentWeight rest
  end.

(** [weightedRoundRobin(origins)], [rnd] being the value of [Math.random()]. *)
Definition weightedRoundRobin (rnd : Q) (origins : list string) : M (option string) :=
  lb <- this ;;
  let random := (rnd * totalWeight lb origins)%Q in
  match weightedRoundRobin_loop lb random 0 origins with
  | Some origin => ret (Some origin)
  | None => ret (origins !! 0%nat)
  end.

(** [getAverageLatency(origin)] *)
Definition getAverageLatency (now : Z) (origin : string) (lb : t) : Z :=
  let history := match latencyHistory lb !! origin with Some h => h | None => [] end in
  if (length history =? 0)%nat then 1000
  else
    let cutoff := now - 10 * 60 * 1000 in
    let recentMeasurements := List.filter (fun m => timestamp m >? cutoff) history in
    if (length recentMeasurements =? 0)%nat then 1000
    else
      let average :=
        (fold_left (fun sum m => sum + latency m) recentMeasurements 0
         / inject_Z (Z.of_nat (length recentMeasurements)))%Q in
      Math_round average.

(** The loop of [latencyBased] over the array it iterates: the pair is
    [(bestOrigin, bestLatency)], with [None] for [Infinity]. *)
Definition latencyBased_loop (now : Z) (lb : t) (origins : list string)
  : option string * option Z :=
  fold_left
    (fun '(bestOrigin, bestLatency) origin =>
       let avgLatency := getAverageLatency now origin lb in
       let better := match bestLatency with
                     | None => true
                     | Some best => avgLatency <? best
                     end in
       if better then (Some origin, Some avgLatency) else (bestOrigin, bestLatency))
    origins (origins !! 0%nat, None).

(** [latencyBased(_origins, _context)].  The body reads [origins], which is
    not the name of a parameter. *)
Definition latencyBased (now : Z) (_origins : list string) (_context : Context)
  : M (option string) :=
  origins <- lift (resolve [("_origins", _origins)] "origins") ;;
  lb <- this ;;
  ret (fst (latencyBased_loop now lb origins)).

(** [String.prototype.toLowerCase] on the ASCII letters. *)
Definition lower_ascii (c : ascii) : ascii :=
  let n := nat_of_ascii c in
  if ((65 <=? n) && (n <=? 90))%nat then ascii_of_nat (n + 32) else c.

Fixpoint toLowerCase (s : string) : string :=
  match s with
  | EmptyString => EmptyString
  | String c rest => String (lower_ascii c) (toLowerCase rest)
  end.

(** [getContinent(country)] *)
Definition getContinent (country : string) : string :=
  if includes_arr ["us"; "ca"; "mx"] country then "north_america"
  else if includes_arr ["gb"; "de"; "fr"; "it"; "es"] country then "europe"
  else if includes_arr ["jp"; "cn"; "kr"; "in"; "sg"] country then "asia"
  else "default".

(** [origins.includes(v)] for a value that may be undefined. *)
Definition includes_opt (origins : list string) (v : option string) : bool :=
  match v with
  | Some o => includes_arr origins o
  | None => false
  end.

(** [selectClosestOrigin(_origins, _context)].  The body reads [context] and
    [origins], which are not the names of parameters. *)
Definition selectClosestOrigin (_origins : list string) (_context : Context)
  : M (option string) :=
  context <- lift (resolve [("_context", _context)] "context") ;;
  let country := match country context with
                 | Some c => toLowerCase c
                 | None => ""
                 end in
  let continent := getContinent country in
  lb <- this ;;
  let continentMapping (key : string) : option string :=
    if String.eqb key "north_america" then origins lb !! 0%nat
    else if String.eqb key "europe" then origins lb !! 2%nat
    else if String.eqb key "asia" then origins lb !! 1%nat
    else if String.eqb key "default" then origins lb !! 0%nat
    else None in
  let preferredOrigin := or_str (continentMapping continent) (continentMapping "default") in
  origins <- lift (resolve [("_origins", _origins)] "origins") ;;
  if includes_opt origins preferredOrigin then ret preferredOrigin
  else ret (origins !! 0%nat).

(** [geographic(origins, context)] *)
Definition geographic (origins : list string) (context : Context) : M (option string) :=
  lb <- this ;;
  let preferredOrigin :=
    match edgeColo context with
    | Some colo => match geographicMapping lb !! colo with
                   | Some v => v
                   | None => None
                   end
    | None => None
    end in
  if truthy_str preferredOrigin && includes_opt origins preferredOrigin
  then ret preferredOrigin
  else selectClosestOrigin origins context.

(** [healthScoreBased(origins)], [rnd] being the value of [Math.random()]. *)
Definition healthScoreBased (hc : HealthChecker.t) (now : Z) (rnd : Q) (origins : list string)
  : M (option string) :=
  let originsByHealth :=
    List.filter (fun item => includes_arr origins (HealthChecker.origin item))
      (HealthChecker.getOriginsByHealth hc now) in
  match originsByHealth with
  | [] => ret (origins !! 0%nat)
  | best :: _ =>
      let bestHealthScore := HealthChecker.healthScore best in
      let topOrigins :=
        List.filter
          (fun item => Qge_bool (inject_Z (HealthChecker.healthScore item))
                         (inject_Z bestHealthScore * (9 # 10))%Q)
          originsByHealth in
      let index := Math_floor (rnd * inject_Z (Z.of_nat (length topOrigins)))%Q in
      match (if index <? 0 then None else topOrigins !! Z.to_nat index) with
      | Some item => ret (Some (HealthChecker.origin item))
      | None => throw (TypeError "Cannot read properties of undefined (reading 'origin')")
      end
  end.

(** [getOptimalOrigin(context)] *)
Definition getOptimalOrigin (hc : HealthChecker.t) (now : Z) (rnd : Q) (context : Context)
  : M (option string) :=
  lb <- this ;;
  let healthyOrigins := getHealthyOrigins hc now lb in
  if (length healthyOrigins =? 0)%nat then ret (origins lb !! 0%nat)
  else if (length healthyOrigins =? 1)%nat then ret (healthyOrigins !! 0%nat)
  else
    let algorithm := currentAlgorithm lb in
    if String.eqb algorithm ROUND_ROBIN then roundRobin healthyOrigins
    else if String.eqb algorithm LEAST_CONNECTIONS then leastConnections healthyOrigins
    else if String.eqb algorithm WEIGHTED_ROUND_ROBIN then weightedRoundRobin rnd healthyOrigins
    else if String.eqb algorithm LATENCY_BASED then latencyBased now healthyOrigins context
    else if String.eqb algorithm GEOGRAPHIC then geographic healthyOrigins context
    else if String.eqb algorithm HEALTH_SCORE then healthScoreBased hc now rnd healthyOrigins
    else roundRobin healthyOrigins.

(** [{ ...context, isFailover: true }] *)
Definition asFailover (context : Context) : Context :=
  {| edgeColo := edgeColo context; country := country context; isFailover := true |}.

(** [getFailoverOrigin(failedOrigin, context)] *)
Definition getFailoverOrigin (hc : HealthChecker.t) (now : Z) (rnd : Q)
    (failedOrigin : string) (context : Context) : M (option string) :=
  lb <- this ;;
  let alternativeOrigins :=
    List.filter (fun origin => negb (String.eqb origin failedOrigin)) (origins lb) in
  let healthyAlternatives :=
    List.filter (HealthChecker.isOriginHealthy hc now) alternativeOrigins in
  if (length healthyAlternatives =? 0)%nat
  then ret (or_str (alternativeOrigins !! 0%nat) (Some failedOrigin))
  else
    failoverOrigin <- getOptimalOrigin hc now rnd (asFailover context) ;;
    ret failoverOrigin.

(** *** Bookkeeping and administration *)

(** [recordLatency(origin, latency)] *)
Definition recordLatency (now : Z) (origin : string) (latency : Q) : M unit :=
  lb <- this ;;
  let history := match latencyHistory lb !! origin with Some h => h | None => [] end in
  let pushed := (history ++ [{| latency := latency; timestamp := now |}])%list in
  let kept := if (100 <? length pushed)%nat
              then skipn (length pushed - 100) pushed else pushed in
  modify (set_latencyHistory (<[origin := kept]> (latencyHistory lb))).

(** [releaseConnection(origin)] *)
Definition releaseConnection (origin : string) : M unit :=
  lb <- this ;;
  let current := or_Z (connectionCounts lb !! origin) 0 in
  modify (set_connectionCounts (<[origin := Z.max 0 (current - 1)]> (connectionCounts lb))).

(** [setAlgorithm(algorithm)] *)
Definition setAlgorithm (algorithm : string) : M unit :=
  if includes_arr algorithms algorithm
  then modify (set_currentAlgorithm algorithm)
  else throw (Error ("Invalid algorithm: " +:+ algorithm)).

(** [setWeight(origin, weight)]; the message leaves the weight out. *)
Definition setWeight (origin : string) (weight : Q) : M unit :=
  lb <- this ;;
  if includes_arr (origins lb) origin && Qgt_bool weight 0
  then modify (set_weights (<[origin := weight]> (weights lb)))
  else throw (Error ("Invalid origin or weight: " +:+ origin)).

(** [addGeographicMapping(edgeColo, origin)] *)
Definition addGeographicMapping (edgeColo : string) (origin : string) : M unit :=
  lb <- this ;;
  if includes_arr (origins lb) origin
  then modify (set_geographicMapping (<[edgeColo := Some origin]> (geographicMapping lb)))
  else throw (Error ("Invalid origin: " +:+ origin)).

(** *** Sequences of calls *)

(** One call on the balancer by a collaborator, with what the environment
    contributes to it: the health checker's state at that moment, the clock
    and the random draw. *)
Inductive call : Type :=
  | CallGetOptimalOrigin (hc : HealthChecker.t) (now : Z) (rnd : Q) (context : Context)
  | CallGetFailoverOrigin (hc : HealthChecker.t) (now : Z) (rnd : Q)
      (failedOrigin : string) (context : Context)
  | CallRecordLatency (now : Z) (origin : string) (latency : Q)
  | CallReleaseConnection (origin : string)
  | CallSetAlgorithm (algorithm : string)
  | CallSetWeight (origin : string) (weight : Q)
  | CallAddGeographicMapping (edgeColo : string) (origin : string).

(** The state a call leaves behind, whether it returns or throws. *)
Definition after (c : call) (lb : t) : t :=
  match c with
  | CallGetOptimalOrigin hc now rnd context => snd (getOptimalOrigin hc now rnd context lb)
  | CallGetFailoverOrigin hc now rnd failed context =>
      snd (getFailoverOrigin hc now rnd failed context lb)
  | CallRecordLatency now origin latency => snd (recordLatency now origin latency lb)
  | CallReleaseConnection origin => snd (releaseConnection origin lb)
  | CallSetAlgorithm algorithm => snd (setAlgorithm algorithm lb)
  | CallSetWeight origin weight => snd (setWeight origin weight lb)
  | CallAddGeographicMapping colo origin => snd (addGeographicMapping colo origin lb)
  end.

Definition run (calls : list call) (lb : t) : t :=
  fold_left (fun acc c => after c acc) calls lb.

End LoadBalancer.

(** ** Cache admission (class [CacheManager]) *)

Module CacheManager.

(** The request context, as far as the cache reads it. *)
Record Context : Type := {
  edgeColo : option string;
  country : option string;
  userAgent : option string;
  requestId : option string
}.

(** A response, as far as admission reads it.  [headers] is the content of
    the [Headers] object, whose names are lower case; [bodyLength] is the
    number of bytes [arrayBuffer()] yields. *)
Record Response : Type := {
  status : Z;
  headers : gmap string string;
  bodyLength : Z
}.

(** [response.ok] *)
Definition ok (r : Response) : bool := (200 <=? status r) && (status r <=? 299).

(** [response.headers.get(name)] for a lower-case [name]. *)
Definition headers_get (r : Response) (name : string) : option string :=
  headers r !! name.

(** [v || d] where [d] is a string. *)
Definition or_string (v : option string) (d : string) : string :=
  match or_str v (Some d) with Some s => s | None => d end.

(** A value of [cacheStrategies]. *)
Record Strategy : Type := {
  ttl : Z;
  vary : list string
}.

(** [this.cacheStrategies], in the order of the object literal. *)
Definition cacheStrategies : list (string * Strategy) :=
  [ ("text/html", {| ttl := 3600; vary := ["Accept-Encoding"; "User-Agent"] |});
    ("text/css", {| ttl := 86400; vary := ["Accept-Encoding"] |});
    ("application/javascript", {| ttl := 86400; vary := ["Accept-Encoding"] |});
    ("application/json", {| ttl := 1800; vary := ["Accept-Encoding"] |});
    ("image/", {| ttl := 604800; vary := ["Accept"] |});
    ("font/", {| ttl := 2592000; vary := [] |});
    ("default", {| ttl := 3600; vary := ["Accept-Encoding"] |}) ].

(** [this.cacheStrategies.default] *)
Definition defaultStrategy : Strategy := {| ttl := 3600; vary := ["Accept-Encoding"] |}.

(** [getCacheStrategy(contentType)] *)
Definition getCacheStrategy (contentType : string) : Strategy :=
  match List.find (fun '(type, _) => startsWith contentType type) cacheStrategies with
  | Some (_, strategy) => strategy
  | None => defaultStrategy
  end.

(** The 10MB limit of [isCacheable]. *)
Definition sizeLimit : Z := 10 * 1024 * 1024.

(** [isCacheable(response, _strategy)] *)
Definition isCacheable (response : Response) (_strategy : Strategy) : bool :=
  if negb (ok response) && negb (status response =? 404) then false
  else
    let cacheControl := or_string (headers_get response "cache-control") "" in
    if includes cacheControl "no-cache" || includes cacheControl "no-store" then false
    else if truthy_str (headers_get response "authorization")
            || truthy_str (headers_get response "set-cookie") then false
    else
      let contentLength := parseInt (or_string (headers_get response "content-length") "0") in
      match contentLength with
      | Some n => if n >? sizeLimit then false else true
      | None => true
      end.

(** What the collaborators of [set] do once the response was found
    cacheable, each either returning or throwing: [new URL(url)] inside
    [generateCacheKey], [response.arrayBuffer()], and [kvStore.put]. *)
Record Collaborators : Type := {
  parseUrl : result unit;
  arrayBuffer : result unit;
  kvPut : result unit
}.

(** The [try] block of [set] after the eligibility test: the steps run in
    order and the first throw ends the block. *)
Definition persist (env : Collaborators) : result unit :=
  match parseUrl env with
  | Throw e => Throw e
  | Ok _ =>
      match arrayBuffer env with
      | Throw e => Throw e
      | Ok _ => kvPut env
      end
  end.

(** [set(url, response, context)]: the value it resolves to. *)
Definition set (env : Collaborators) (url : string) (response : Response)
    (context : Context) : bool :=
  let contentType := or_string (headers_get response "content-type") "default" in
  let cacheStrategy := getCacheStrategy contentType in
  if negb (isCacheable response cacheStrategy) then false
  else
    match persist env with
    | Ok _ => true
    | Throw _ => false
    end.

(** *** The hash of the vary string *)

(** [ToInt32]: the signed 32-bit integer congruent to [n]. *)
Definition toInt32 (n : Z) : Z := (n + 2 ^ 31) mod 2 ^ 32 - 2 ^ 31.

(** One round of the loop of [simpleHash] on the code [char]:
    [hash = ((hash << 5) - hash) + char; hash = hash & hash].  The shift
    yields a 32-bit integer, the subtraction and the addition are exact, and
    the bitwise and brings the sum back to 32 bits. *)
Definition simpleHash_step (hash : Z) (char : Z) : Z :=
  toInt32 ((toInt32 (Z.shiftl hash 5) - hash) + char).

(** [str.charCodeAt(i)] for each [i]; a string is its sequence of
    one-byte characters, which for ASCII text are its UTF-16 code units. *)
Definition charCodes (str : string) : list Z :=
  map (fun c => Z.of_nat (nat_of_ascii c)) (list_ascii_of_string str).

(** The value of [hash] when the loop of [simpleHash] ends; the method
    returns the base-36 rendering of its absolute value. *)
Definition simpleHash_loop (str : string) : Z :=
  fold_left simpleHash_step (charCodes str) 0.

(** The polynomial [c1 * 31^(n-1) + ... + cn] of a list of codes, by Horner's
    rule. *)
Definition polynomial31 (codes : list Z) : Z :=
  fold_left (fun h c => 31 * h + c) codes 0.

(** *** Time to live *)

Definition is_digit (c : ascii) : bool :=
  let n := nat_of_ascii c in ((48 <=? n) && (n <=? 57))%nat.

(** The longest run of decimal digits [s] starts with. *)
Fixpoint leading_digits (s : string) : string :=
  match s with
  | String c rest => if is_digit c then String c (leading_digits rest) else EmptyString
  | EmptyString => EmptyString
  end.

(** [s.match(/name(\d+)/)]: the first capture group of the leftmost match,
    [None] when nothing matches.  [name] is a literal without regular
    expression operators. *)
Fixpoint match_digits_after (name : string) (s : string) : option string :=
  let here :=
    if String.prefix name s
    then
      let digits := leading_digits (String.substring (String.length name)
                                      (String.length s - String.length name) s) in
      if String.eqb digits "" then None else Some digits
    else None in
  match here with
  | Some digits => Some digits
  | None =>
      match s with
      | EmptyString => None
      | String _ rest => match_digits_after name rest
      end
  end.

(** [maxAgeMatch ? parseInt(maxAgeMatch[1]) : null] *)
Definition extractMaxAge (response : Response) : option Z :=
  let cacheControl := or_string (headers_get response "cache-control") "" in
  match match_digits_after "max-age=" cacheControl with
  | Some digits => parseInt digits
  | None => None
  end.

(** [extractStaleWhileRevalidate(response)] *)
Definition extractStaleWhileRevalidate (response : Response) : Z :=
  let cacheControl := or_string (headers_get response "cache-control") "" in
  match match_digits_after "stale-while-revalidate=" cacheControl with
  | Some digits => match parseInt digits with Some n => n | None => 0 end
  | None => 0
  end.

(** [calculateTTL(response, strategy)] at time [now] with the global
    maximum [maxTTL].  [dateTime] stands for [s => new Date(s).getTime()],
    [None] being [NaN].  The captured digits always parse, so the [None]
    case of the first [parseInt] never arises. *)
Definition calculateTTL (maxTTL : Z) (now : Z) (dateTime : string -> option Z)
    (response : Response) (strategy : Strategy) : Z :=
  let cacheControl := or_string (headers_get response "cache-control") "" in
  match match_digits_after "max-age=" cacheControl with
  | Some digits => Z.min (match parseInt digits with Some n => n | None => 0 end) maxTTL
  | None =>
      let byStrategy := Z.min (ttl strategy) maxTTL in
      let expires := headers_get response "expires" in
      if truthy_str expires then
        match dateTime (or_string expires "") with
        | Some expiresTime =>
            let ttl := (expiresTime - now) / 1000 in
            if ttl >? 0 then Z.min ttl maxTTL else byStrategy
        | None => byStrategy
        end
      else byStrategy
  end.

(** The fields of [cacheData] that [get] reads back, the body apart, which
    is not modelled. *)
Record Entry : Type := {
  entryStatus : Z;
  entryHeaders : gmap string string;
  entryContentType : string;
  cachedAt : Z;
  expiresAt : Z;
  freshUntil : Z;
  staleWhileRevalidate : Z
}.

(** The [cacheData] object [set] builds at time [now]. *)
Definition cacheData (maxTTL : Z) (now : Z) (dateTime : string -> option Z)
    (response : Response) : Entry :=
  let contentType := or_string (headers_get response "content-type") "default" in
  let cacheStrategy := getCacheStrategy contentType in
  let ttl := calculateTTL maxTTL now dateTime response cacheStrategy in
  let expiresAt := now + ttl * 1000 in
  let maxAge := or_Z (extractMaxAge response) ttl in
  let freshUntil := now + maxAge * 1000 in
  {| entryStatus := status response;
     entryHeaders := headers response;
     entryContentType := contentType;
     cachedAt := now;
     expiresAt := expiresAt;
     freshUntil := freshUntil;
     staleWhileRevalidate := extractStaleWhileRevalidate response |}.

(** [expirationTtl] of the [kvStore.put] of [set]. *)
Definition expirationTtl (maxTTL : Z) (now : Z) (dateTime : string -> option Z)
    (response : Response) : Z :=
  let contentType := or_string (headers_get response "content-type") "default" in
  Z.min (calculateTTL maxTTL now dateTime response (getCacheStrategy contentType)) maxTTL.

(** The store after [set(url, response, context)] at time [now], [cacheKey]
    being the key [generateCacheKey] derives: the entry is there when [set]
    resolved to [true]; a [set] that resolved to [false] is taken to have
    written nothing. *)
Definition storeAfterSet (env : Collaborators) (maxTTL : Z) (now : Z)
    (dateTime : string -> option Z) (cacheKey : string) (url : string)
    (response : Response) (context : Context) (kv : gmap string Entry) : gmap string Entry :=
  if set env url response context
  then <[cacheKey := cacheData maxTTL now dateTime response]> kv
  else kv.

(** Whether [new Response(body, { status })] throws for a body that is not
    null: the status is outside 200..599 or is one of the statuses that
    admit no body. *)
Definition responseThrows (status : Z) : bool :=
  (status <? 200) || (599 <? status)
  || (status =? 204) || (status =? 205) || (status =? 304).

(** What a hit of [get] carries besides the body: the stored status and
    headers, and the metadata headers [X-Cache-Age], [X-Cache-TTL] and
    [X-Cache-Stale]. *)
Record Hit : Type := {
  hitStatus : Z;
  hitHeaders : gmap string string;
  hitAge : Z;
  hitTTL : Z;
  hitStale : bool
}.

(** [get(url, context)] at time [now] on a store that answers, [cacheKey]
    being the key [generateCacheKey] derives: the response, [None] for
    [null], and the store afterwards.  The stored body is an array, never
    null, so rebuilding the response throws for the statuses of
    [responseThrows], and the [catch] turns that into [null]. *)
Definition get (now : Z) (cacheKey : string) (kv : gmap string Entry)
  : option Hit * gmap string Entry :=
  match kv !! cacheKey with
  | None => (None, kv)
  | Some cachedData =>
      if now >? expiresAt cachedData then (None, delete cacheKey kv)
      else
        let isStale := now >? freshUntil cachedData in
        if responseThrows (entryStatus cachedData) then (None, kv)
        else
          (Some {| hitStatus := entryStatus cachedData;
                   hitHeaders := entryHeaders cachedData;
                   hitAge := (now - cachedAt cachedData) / 1000;
                   hitTTL := (expiresAt cachedData - now) / 1000;
                   hitStale := isStale |},
           kv)
  end.

End CacheManager.

(** ** Connection pools (class [PingOptimizer]) *)

Module PingOptimizer.

(** A value of [connectionPool]. *)
Record Pool : Type := {
  connections : Z;
  maxConnections : Z;
  keepAliveTimeout : Z;
  lastUsed : Z
}.

(** [optimizeConnection(targetOrigin, _context)] at time [now], [connectionKey]
    being the host name of [targetOrigin]. *)
Definition optimizeConnection (now : Z) (connectionKey : string)
    (connectionPool : gmap string Pool) : gmap string Pool :=
  let pool := match connectionPool !! connectionKey with
              | Some p => p
              | None => {| connections := 0; maxConnections := 100;
                           keepAliveTimeout := 30000; lastUsed := now |}
              end in
  let connections1 := connections pool + 1 in
  let connections2 :=
    if connections1 >? maxConnections pool
    then Math_floor (inject_Z (maxConnections pool) * (8 # 10))%Q
    else connections1 in
  <[connectionKey := {| connections := connections2;
                        maxConnections := maxConnections pool;
                        keepAliveTimeout := keepAliveTimeout pool;
                        lastUsed := now |}]> connectionPool.

(** The pools after a sequence of [optimizeConnection] calls, each given
    with its time and host name. *)
Definition optimizeAll (calls : list (Z * string)) (connectionPool : gmap string Pool)
  : gmap string Pool :=
  fold_left (fun acc '(now, key) => optimizeConnection now key acc) calls connectionPool.

End PingOptimizer.

(** *** The registry invariant *)

Module Invariant.
Import LoadBalancer.

(** Every recorded weight is positive and every recorded connection count
    is non-negative. *)
Definition holds (lb : t) : Prop :=
  map_Forall (fun _ w => (0 < w)%Q) (weights lb)
  /\ map_Forall (fun _ c => 0 <= c) (connectionCounts lb).

End Invariant.

(** *** What the prober keeps true of every metrics object *)

Module MetricsInvariant.
Import HealthChecker.

(** At least one check is counted, the successful checks are between none
    and all of them, the summed response time is not negative, the error
    log holds at most ten entries, and the two derived rates are the
    quotients of the counters. *)
Definition holds (m : Metrics) : Prop :=
  1 <= totalChecks m
  /\ 0 <= successfulChecks m <= totalChecks m
  /\ 0 <= totalResponseTime m
  /\ (length (errors m) <= 10)%nat
  /\ (successRate m == inject_Z (successfulChecks m) / inject_Z (totalChecks m))%Q
  /\ (averageResponseTime m == inject_Z (totalResponseTime m) / inject_Z (totalChecks m))%Q.

End MetricsInvariant.

(** ** The health score as the specification words it *)

Module Spec.

(** Nearest integer, a tie going up. *)
Definition round (q : Q) : Z :=
  let below := Qfloor q in
  if Qle_bool (1 # 2) (q - inject_Z below) then below + 1 else below.

(** Number of logged errors whose timestamp lies within the last five probe
    intervals before [now]. *)
Definition recentErrorCount (hc : HealthChecker.t) (now : Z) (m : HealthChecker.Metrics) : Z :=
  Z.of_nat
    (length
       (List.filter
          (fun e => now - 5 * HealthChecker.checkInterval hc <? HealthChecker.errTimestamp e)
          (HealthChecker.errors m))).

(** [round(0.4 * 100 * successRate
           + 0.3 * max(0, 100 * (1 - averageResponseTime / threshold))
           + 0.3 * max(0, 100 - 20 * recentErrorCount))] *)
Definition healthScore (successRate averageResponseTime responseTimeThreshold : Q)
    (recentErrorCount : Z) : Z :=
  round ((4 # 10) * 100 * successRate
         + (3 # 10) * Qmax 0 (100 * (1 - averageResponseTime / responseTimeThreshold))
         + (3 # 10) * Qmax 0 (100 - 20 * inject_Z recentErrorCount))%Q.

End Spec.

(** ** Concrete configurations used by the examples *)

Module Fixtures.

Definition originA : string := "https://a.example".
Definition originB : string := "https://b.example".

(** Four probes that all fulfil with [true]. *)
Definition allPass : HealthChecker.Probes :=
  {| HealthChecker.pConnectivity := Some true; HealthChecker.pResponseTime := Some true;
     HealthChecker.pStatusCode := Some true; HealthChecker.pSSL := Some true |}.

(** Four probes of which two reject. *)
Definition twoFail : HealthChecker.Probes :=
  {| HealthChecker.pConnectivity := None; HealthChecker.pResponseTime := Some true;
     HealthChecker.pStatusCode := None; HealthChecker.pSSL := Some true |}.

(** A checker with the default configuration that probed both origins at
    time 1000, each probe round taking 20 ms and passing. *)
Definition checkerBothHealthy : HealthChecker.t :=
  snd (HealthChecker.checkOriginHealth 1000 20 allPass originB
    (snd (HealthChecker.checkOriginHealth 1000 20 allPass originA
       (HealthChecker.new None None)))).

(** A checker that never probed. *)
Definition checkerEmpty : HealthChecker.t := HealthChecker.new None None.

Definition context0 : LoadBalancer.Context :=
  {| LoadBalancer.edgeColo := Some "LAX"; LoadBalancer.country := Some "US";
     LoadBalancer.isFailover := false |}.

(** A balancer over the two origins, as constructed. *)
Definition balancerAB : LoadBalancer.t := LoadBalancer.new (Some [originA; originB]).

(** The same balancer after [setAlgorithm(name)]. *)
Definition balancerWith (name : string) : LoadBalancer.t :=
  snd (LoadBalancer.setAlgorithm name balancerAB).

(** The two-origin balancer switched to the latency algorithm, with one
    sample of 100 ms for [originA] and one of 300 ms for [originB]. *)
Definition balancerLatency : LoadBalancer.t :=
  snd (LoadBalancer.recordLatency 1600 originB 300
    (snd (LoadBalancer.recordLatency 1500 originA 100
       (balancerWith LoadBalancer.LATENCY_BASED)))).

(** The metrics of [originA] after one failed and one passed probe round. *)
Definition metricsOneFailure : HealthChecker.Metrics :=
  match HealthChecker.getOriginMetrics
          (snd (HealthChecker.checkOriginHealth 40000 100 allPass originA
             (snd (HealthChecker.checkOriginHealth 1000 300 twoFail originA
                (HealthChecker.new None None)))))
          originA with
  | Some m => m
  | None => HealthChecker.freshMetrics
  end.

Definition cacheContext0 : CacheManager.Context :=
  {| CacheManager.edgeColo := Some "LAX"; CacheManager.country := Some "US";
     CacheManager.userAgent := Some "Mozilla/5.0"; CacheManager.requestId := Some "r1" |}.

(** Collaborators that all return. *)
Definition collaboratorsOk : CacheManager.Collaborators :=
  {| CacheManager.parseUrl := Ok tt; CacheManager.arrayBuffer := Ok tt;
     CacheManager.kvPut := Ok tt |}.

(** A 200 response without headers whose body has one byte more than
    10 MiB. *)
Definition bigResponse : CacheManager.Response :=
  {| CacheManager.status := 200; CacheManager.headers := ∅;
     CacheManager.bodyLength := 10 * 1024 * 1024 + 1 |}.

(** A 200 response whose [set-cookie] header has the empty value. *)
Definition emptyCookieResponse : CacheManager.Response :=
  {| CacheManager.status := 200;
     CacheManager.headers := {[ "set-cookie" := "" ]};
     CacheManager.bodyLength := 2 |}.

(** A small 200 HTML response. *)
Definition htmlResponse : CacheManager.Response :=
  {| CacheManager.status := 200;
     CacheManager.headers :=
       {[ "content-type" := "text/html"; "content-length" := "120";
          "cache-control" := "public, max-age=60" ]};
     CacheManager.bodyLength := 120 |}.

End Fixtures.

(** ** Further concrete configurations *)

Module MoreFixtures.
Import Fixtures.

(** A date parser that understands no date. *)
Definition noDate : string -> option Z := fun _ => None.

(** The store after [htmlResponse] was stored at time 1000 under the key
    [k], with the default maximum time to live. *)
Definition storeWithHtml : gmap string CacheManager.Entry :=
  CacheManager.storeAfterSet collaboratorsOk 86400 1000 noDate "k"
    "https://edge.example/a" htmlResponse cacheContext0 ∅.

(** What [get] serves from it at time 5000. *)
Definition hitHtml : CacheManager.Hit :=
  {| CacheManager.hitStatus := 200;
     CacheManager.hitHeaders := CacheManager.headers htmlResponse;
     CacheManager.hitAge := 4;
     CacheManager.hitTTL := 56;
     CacheManager.hitStale := false |}.

(** A 204 response, which is eligible for storing. *)
Definition noContentResponse : CacheManager.Response :=
  {| CacheManager.status := 204; CacheManager.headers := ∅; CacheManager.bodyLength := 0 |}.

End MoreFixtures.

(** * Properties *)

Import HealthChecker LoadBalancer Fixtures.
Local Open Scope lb_scope.

(** ** The behaviour the test suite and the specification list *)

Example parseInt_examples :
  parseInt "0" = Some 0 /\ parseInt "  42abc" = Some 42 /\ parseInt "-7" = Some (-7)
  /\ parseInt "0x10" = Some 16 /\ parseInt "abc" = None /\ parseInt "" = None.
Proof. repeat split; reflexivity. Qed.

Example includes_examples :
  includes "private, no-store" "no-store" = true
  /\ includes "max-age=3" "no-cache" = false
  /\ includes "" "" = true.
Proof. repeat split; reflexivity. Qed.

Example Math_round_examples :
  Math_round (5 # 2) = 3 /\ Math_round (-5 # 2) = -2 /\ Math_round (7 # 3) = 2.
Proof. repeat split; reflexivity. Qed.

(** Round-robin over two origins yields the first, the second, the first. *)
Example roundRobin_rotates :
  let l := [originA; originB] in
  let '(first, lb1) := roundRobin l balancerAB in
  let '(second, lb2) := roundRobin l lb1 in
  let '(third, _) := roundRobin l lb2 in
  (first, second, third) = (Ok (Some originA), Ok (Some originB), Ok (Some originA)).
Proof. vm_compute. reflexivity. Qed.

(** With counts 5 and 2 the least-connections pick is the second origin,
    whose count becomes 3. *)
Example leastConnections_picks_fewest :
  let lb := set_connectionCounts
              (<[originB := 2]> (<[originA := 5]> (connectionCounts balancerAB)))
              balancerAB in
  let '(selected, lb') := leastConnections [originA; originB] lb in
  selected = Ok (Some originB) /\ connectionCounts lb' !! originB = Some 3.
Proof. vm_compute. split; reflexivity. Qed.

(** Samples of 100, 200 and 300 ms average to 200; a sample older than ten
    minutes drops out. *)
Example getAverageLatency_examples :
  let lb := snd (recordLatency 1300 originA 300
             (snd (recordLatency 1200 originA 200
               (snd (recordLatency 1100 originA 100 balancerAB))))) in
  getAverageLatency 2000 originA lb = 200
  /\ getAverageLatency (1100 + 600000) originA lb = 250
  /\ getAverageLatency 2000 originB lb = 1000.
Proof. vm_compute. repeat split; reflexivity. Qed.

(** ** Staleness of health snapshots *)

(** C8. Whatever the cached snapshot of an origin records, once it is
    older than twice the probe interval [isOriginHealthy] answers [false]. *)
Theorem isOriginHealthy_stale_is_unhealthy
    (hc : HealthChecker.t) (now : Z) (o : string) (cached : Cached) :
  healthCache hc !! cacheKey o = Some cached ->
  now - cachedAt cached > checkInterval hc * 2 ->
  isOriginHealthy hc now o = false.
Proof.
  intros Hget Hold. unfold isOriginHealthy. rewrite Hget.
  destruct (Z.gtb_spec (now - cachedAt cached) (checkInterval hc * 2)); [reflexivity | lia].
Qed.

(** The snapshot of [originA] taken at 1020 records [healthy = true]; it is
    trusted at 61020 and no more at 61021, the interval being 30000. *)
Lemma isOriginHealthy_stale_witness :
  (exists cached,
      healthCache checkerBothHealthy !! cacheKey originA = Some cached
      /\ healthy (health cached) = true)
  /\ isOriginHealthy checkerBothHealthy 61020 originA = true
  /\ isOriginHealthy checkerBothHealthy 61021 originA = false.
Proof.
  split; [| split].
  - eexists. split; vm_compute; reflexivity.
  - vm_compute. reflexivity.
  - eapply (isOriginHealthy_stale_is_unhealthy checkerBothHealthy 61021 originA).
    + vm_compute. reflexivity.
    + vm_compute. reflexivity.
Defined.

(** ** Selection without a healthy origin *)

(** C3. With no healthy origin [getOptimalOrigin] returns [this.origins[0]],
    the first configured origin, without throwing and without touching the
    state. *)
Theorem getOptimalOrigin_fail_open
    (hc : HealthChecker.t) (now : Z) (rnd : Q) (context : Context) (lb : LoadBalancer.t) :
  getHealthyOrigins hc now lb = [] ->
  getOptimalOrigin hc now rnd context lb = (Ok (head (origins lb)), lb).
Proof.
  intros Hnone. unfold getOptimalOrigin, bind, this, ret. cbn.
  rewrite Hnone. cbn. destruct (origins lb); reflexivity.
Qed.

Lemma getOptimalOrigin_fail_open_witness :
  getHealthyOrigins checkerEmpty 2000 balancerAB = []
  /\ getOptimalOrigin checkerEmpty 2000 0 context0 balancerAB = (Ok (Some originA), balancerAB).
Proof.
  split.
  - vm_compute. reflexivity.
  - apply (getOptimalOrigin_fail_open checkerEmpty 2000 0 context0 balancerAB).
    vm_compute. reflexivity.
Defined.

(** ** Failover with a single configured origin *)

(** C10. When the failed origin is the only configured one,
    [getFailoverOrigin] hands it back. *)
Theorem getFailoverOrigin_single_origin
    (hc : HealthChecker.t) (now : Z) (rnd : Q) (o : string) (context : Context)
    (lb : LoadBalancer.t) :
  origins lb = [o] ->
  getFailoverOrigin hc now rnd o context lb = (Ok (Some o), lb).
Proof.
  intros Hone. unfold getFailoverOrigin, bind, this, ret. cbn.
  rewrite Hone. cbn. rewrite String.eqb_refl. cbn. reflexivity.
Qed.

Lemma getFailoverOrigin_single_origin_witness :
  origins (LoadBalancer.new (Some [originA])) = [originA]
  /\ getFailoverOrigin checkerBothHealthy 2000 0 originA context0
       (LoadBalancer.new (Some [originA]))
     = (Ok (Some originA), LoadBalancer.new (Some [originA])).
Proof.
  split.
  - reflexivity.
  - apply getFailoverOrigin_single_origin. reflexivity.
Defined.

(** ** Changing the algorithm *)

(** C6. [setAlgorithm] throws on a name outside [algorithms] and leaves the
    instance as it was; on a name of [algorithms] it returns and the name is
    the current algorithm afterwards. *)
Theorem setAlgorithm_validates (name : string) (lb : LoadBalancer.t) :
  (~ In name algorithms ->
     exists message, setAlgorithm name lb = (Throw (Error message), lb))
  /\ (In name algorithms ->
     exists lb', setAlgorithm name lb = (Ok tt, lb')
                 /\ currentAlgorithm lb' = name
                 /\ lb' = set_currentAlgorithm name lb).
Proof.
  unfold setAlgorithm, includes_arr.
  destruct (existsb (String.eqb name) algorithms) eqn:E.
  - apply existsb_exists in E as (a & Hin & Heq).
    apply String.eqb_eq in Heq. subst a.
    split; [intros Hn; contradiction |].
    intros _. eexists. split; [reflexivity | split; reflexivity].
  - split.
    + intros _. eexists. reflexivity.
    + intros Hin. exfalso.
      assert (existsb (String.eqb name) algorithms = true) as Hc.
      { apply existsb_exists. exists name. split; [assumption | apply String.eqb_refl]. }
      congruence.
Qed.

Lemma setAlgorithm_validates_witness :
  (exists message,
      setAlgorithm "invalid_algorithm" balancerAB = (Throw (Error message), balancerAB))
  /\ (exists lb', setAlgorithm "round_robin" balancerAB = (Ok tt, lb')
                  /\ currentAlgorithm lb' = "round_robin"
                  /\ lb' = set_currentAlgorithm "round_robin" balancerAB).
Proof.
  split.
  - apply (proj1 (setAlgorithm_validates "invalid_algorithm" balancerAB)).
    intros Hin. vm_compute in Hin. intuition discriminate.
  - apply (proj2 (setAlgorithm_validates "round_robin" balancerAB)).
    vm_compute. left. reflexivity.
Defined.

(** ** The registry invariant along any sequence of calls *)

Section InvariantPreservation.

Lemma or_Z_nonneg (counts : gmap string Z) (o : string) :
  map_Forall (fun _ c => 0 <= c) counts -> 0 <= or_Z (counts !! o) 0.
Proof.
  intros Hall. unfold or_Z. destruct (counts !! o) as [c |] eqn:E; [| lia].
  specialize (Hall o c E). cbn in Hall. destruct (c =? 0); lia.
Qed.

Lemma leastConnections_loop_nonneg
    (counts : gmap string Z) (l : list string) (start : string * Z) :
  map_Forall (fun _ c => 0 <= c) counts ->
  0 <= snd start ->
  0 <= snd (leastConnections_loop counts l start).
Proof.
  intros Hall. unfold leastConnections_loop.
  revert start. induction l as [| o l IH]; intros [sel mn] Hmn; cbn; [exact Hmn |].
  apply IH. destruct (or_Z (counts !! o) 0 <? mn); cbn; [| exact Hmn].
  apply or_Z_nonneg, Hall.
Qed.

Lemma initializeWeights_holds (lb : LoadBalancer.t) :
  Invariant.holds lb -> Invariant.holds (initializeWeights lb).
Proof.
  unfold initializeWeights.
  generalize (origins lb) as l. intros l. revert lb.
  induction l as [| o l IH]; intros lb Hlb; cbn; [exact Hlb |].
  apply IH. destruct Hlb as [Hw Hc]. split; cbn.
  - apply map_Forall_insert_2; [reflexivity | exact Hw].
  - apply map_Forall_insert_2; [lia | exact Hc].
Qed.

Lemma new_holds (origins0 : option (list string)) : Invariant.holds (LoadBalancer.new origins0).
Proof.
  unfold LoadBalancer.new, initializeGeographicMapping.
  match goal with
  | |- Invariant.holds (set_geographicMapping _ ?x) =>
      assert (Invariant.holds x) as H
  end.
  { apply initializeWeights_holds. split; cbn; apply map_Forall_empty. }
  exact H.
Qed.

Lemma roundRobin_holds (l : list string) (lb : LoadBalancer.t) :
  Invariant.holds lb -> Invariant.holds (snd (roundRobin l lb)).
Proof. intros H. exact H. Qed.

Lemma leastConnections_holds (l : list string) (lb : LoadBalancer.t) :
  Invariant.holds lb -> Invariant.holds (snd (leastConnections l lb)).
Proof.
  intros [Hw Hc]. unfold leastConnections, bind, this, ret, modify. cbn.
  destruct l as [| first rest]; [split; assumption |].
  pose proof (leastConnections_loop_nonneg (connectionCounts lb) (first :: rest)
                (first, or_Z (connectionCounts lb !! first) 0) Hc
                (or_Z_nonneg _ first Hc)) as Hmin.
  destruct (leastConnections_loop (connectionCounts lb) (first :: rest)
              (first, or_Z (connectionCounts lb !! first) 0)) as [sel mn].
  cbn in *. split; cbn; [exact Hw |].
  apply map_Forall_insert_2; [lia | exact Hc].
Qed.

Lemma weightedRoundRobin_state (rnd : Q) (l : list string) (lb : LoadBalancer.t) :
  snd (weightedRoundRobin rnd l lb) = lb.
Proof.
  unfold weightedRoundRobin, bind, this, ret. cbn.
  destruct (weightedRoundRobin_loop lb (rnd * totalWeight lb l) 0 l); reflexivity.
Qed.

Lemma latencyBased_state (now : Z) (l : list string) (context : Context)
    (lb : LoadBalancer.t) :
  snd (latencyBased now l context lb) = lb.
Proof. reflexivity. Qed.

Lemma geographic_state (l : list string) (context : Context) (lb : LoadBalancer.t) :
  snd (geographic l context lb) = lb.
Proof.
  unfold geographic, bind, this, ret. cbn.
  match goal with
  | |- context [if ?c then _ else _] => destruct c
  end; reflexivity.
Qed.

Lemma healthScoreBased_state (hc : HealthChecker.t) (now : Z) (rnd : Q) (l : list string)
    (lb : LoadBalancer.t) :
  snd (healthScoreBased hc now rnd l lb) = lb.
Proof.
  unfold healthScoreBased, ret, throw.
  destruct (List.filter _ _) as [| best rest]; [reflexivity |].
  match goal with
  | |- context [match ?c with Some _ => _ | None => _ end] => destruct c
  end; reflexivity.
Qed.

Lemma getOptimalOrigin_holds (hc : HealthChecker.t) (now : Z) (rnd : Q)
    (context : Context) (lb : LoadBalancer.t) :
  Invariant.holds lb -> Invariant.holds (snd (getOptimalOrigin hc now rnd context lb)).
Proof.
  intros H. unfold getOptimalOrigin, bind, this. cbn.
  repeat match goal with
         | |- Invariant.holds (snd ((if ?c then _ else _) lb)) => destruct c
         end;
    first [ exact H
          | apply roundRobin_holds; exact H
          | apply leastConnections_holds; exact H
          | rewrite weightedRoundRobin_state; exact H
          | rewrite latencyBased_state; exact H
          | rewrite geographic_state; exact H
          | rewrite healthScoreBased_state; exact H ].
Qed.

Lemma getFailoverOrigin_holds (hc : HealthChecker.t) (now : Z) (rnd : Q)
    (failed : string) (context : Context) (lb : LoadBalancer.t) :
  Invariant.holds lb ->
  Invariant.holds (snd (getFailoverOrigin hc now rnd failed context lb)).
Proof.
  intros H. unfold getFailoverOrigin, bind, this. cbn -[getOptimalOrigin].
  match goal with
  | |- context [if ?c then _ else _] => destruct c
  end; [exact H |].
  pose proof (getOptimalOrigin_holds hc now rnd (asFailover context) lb H) as H'.
  destruct (getOptimalOrigin hc now rnd (asFailover context) lb) as [[v | e] lb'];
    exact H'.
Qed.

Lemma releaseConnection_holds (o : string) (lb : LoadBalancer.t) :
  Invariant.holds lb -> Invariant.holds (snd (releaseConnection o lb)).
Proof.
  intros [Hw Hc]. split; cbn; [exact Hw |].
  apply map_Forall_insert_2; [lia | exact Hc].
Qed.

Lemma setWeight_holds (o : string) (w : Q) (lb : LoadBalancer.t) :
  Invariant.holds lb -> Invariant.holds (snd (setWeight o w lb)).
Proof.
  intros [Hw Hc]. unfold setWeight, bind, this, modify, throw. cbn.
  destruct (includes_arr (origins lb) o); cbn; [| split; assumption].
  destruct (Qgt_bool w 0) eqn:E; cbn; [| split; assumption].
  split; cbn; [| exact Hc].
  apply map_Forall_insert_2; [| exact Hw].
  unfold Qgt_bool, Qlt_bool in E. apply negb_true_iff in E.
  apply Qnot_le_lt. intros Hle. apply Qle_bool_iff in Hle. congruence.
Qed.

Lemma after_holds (c : call) (lb : LoadBalancer.t) :
  Invariant.holds lb -> Invariant.holds (after c lb).
Proof.
  intros H. destruct c; cbn [after].
  - apply getOptimalOrigin_holds, H.
  - apply getFailoverOrigin_holds, H.
  - exact H.
  - apply releaseConnection_holds, H.
  - unfold setAlgorithm. destruct (includes_arr algorithms algorithm); exact H.
  - apply setWeight_holds, H.
  - unfold addGeographicMapping, bind, this. cbn.
    destruct (includes_arr (origins lb) origin0); exact H.
Qed.

Lemma run_holds (calls : list call) (lb : LoadBalancer.t) :
  Invariant.holds lb -> Invariant.holds (run calls lb).
Proof.
  unfold run. revert lb.
  induction calls as [| c calls IH]; intros lb H; cbn; [exact H |].
  apply IH, after_holds, H.
Qed.

End InvariantPreservation.

(** C9. From the state the constructor builds, after any sequence of calls
    (selections, failovers, latency records, releases, algorithm, weight and
    mapping changes, returning or throwing) every recorded weight is
    positive and every recorded connection count is non-negative; and a
    release on any state whatever leaves the released origin with a
    non-negative count. *)
Theorem weights_positive_counts_nonnegative
    (origins0 : option (list string)) (calls : list call) :
  (forall o w, weights (run calls (LoadBalancer.new origins0)) !! o = Some w -> (0 < w)%Q)
  /\ (forall o c, connectionCounts (run calls (LoadBalancer.new origins0)) !! o = Some c -> 0 <= c)
  /\ (forall lb o, exists c,
         connectionCounts (after (CallReleaseConnection o) lb) !! o = Some c /\ 0 <= c).
Proof.
  destruct (run_holds calls (LoadBalancer.new origins0) (new_holds origins0)) as [Hw Hc].
  split; [| split].
  - intros o w E. exact (Hw o w E).
  - intros o c E. exact (Hc o c E).
  - intros lb o. eexists. split.
    + cbn. apply lookup_insert_eq.
    + lia.
Qed.

(** ** Weighted selection *)

Section WeightedRoundRobin.

Variable lb : LoadBalancer.t.
Variable random : Q.

Lemma weightedRoundRobin_loop_first (l : list string) (acc : Q) (o : string) :
  weightedRoundRobin_loop lb random acc l = Some o ->
  exists before rest,
    l = (before ++ o :: rest)%list
    /\ Qle_bool random (currentWeightAfter lb (before ++ [o])%list acc) = true
    /\ forall k, (k < length before)%nat ->
         Qle_bool random (currentWeightAfter lb (firstn (S k) before) acc) = false.
Proof.
  unfold currentWeightAfter.
  revert acc. induction l as [| x l IH]; intros acc Hloop; cbn in Hloop; [discriminate |].
  destruct (Qle_bool random (acc + weightOf lb x)) eqn:E.
  - injection Hloop as <-. exists [], l. cbn. repeat split; [exact E |].
    intros k Hk. lia.
  - destruct (IH _ Hloop) as (before & rest & -> & Hle & Hlt).
    exists (x :: before), rest. cbn. repeat split; [exact Hle |].
    intros [| k] Hk; cbn.
    + destruct before; exact E.
    + apply Hlt. lia.
Qed.

Lemma weightedRoundRobin_loop_finds (l : list string) (acc : Q) :
  l <> [] ->
  Qle_bool random (currentWeightAfter lb l acc) = true ->
  exists o, weightedRoundRobin_loop lb random acc l = Some o.
Proof.
  unfold currentWeightAfter.
  revert acc. induction l as [| x l IH]; intros acc Hne Hle; [congruence |].
  cbn. destruct (Qle_bool random (acc + weightOf lb x)) eqn:E; [eauto |].
  destruct l as [| y l].
  - cbn in Hle. congruence.
  - apply IH; [discriminate | exact Hle].
Qed.

End WeightedRoundRobin.

(** C5. Under the weighted algorithm with two or more healthy origins and a
    draw [r = Math.random() * totalWeight] in [[0, totalWeight)], the origin
    returned is the first one, in the order of the healthy origins, whose
    cumulative weight is at least [r]: its own cumulative weight reaches
    [r] and that of no earlier origin does. *)
Theorem weightedRoundRobin_selects_interval
    (hc : HealthChecker.t) (now : Z) (rnd : Q) (context : Context) (lb : LoadBalancer.t) :
  currentAlgorithm lb = WEIGHTED_ROUND_ROBIN ->
  (2 <= length (getHealthyOrigins hc now lb))%nat ->
  (0 <= rnd * totalWeight lb (getHealthyOrigins hc now lb))%Q ->
  (rnd * totalWeight lb (getHealthyOrigins hc now lb)
   < totalWeight lb (getHealthyOrigins hc now lb))%Q ->
  exists before o rest,
    getHealthyOrigins hc now lb = (before ++ o :: rest)%list
    /\ getOptimalOrigin hc now rnd context lb = (Ok (Some o), lb)
    /\ (rnd * totalWeight lb (getHealthyOrigins hc now lb)
        <= totalWeight lb (before ++ [o])%list)%Q
    /\ forall k, (k < length before)%nat ->
         ~ (rnd * totalWeight lb (getHealthyOrigins hc now lb)
            <= totalWeight lb (firstn (S k) before))%Q.
Proof.
  intros Halg Hlen Hlo Hhi.
  unfold getOptimalOrigin, bind, this. cbn.
  set (healthy := getHealthyOrigins hc now lb) in *.
  destruct healthy as [| h1 [| h2 hs]] eqn:Eh; cbn in Hlen; try lia.
  rewrite <- Eh in *. clear Hlen.
  assert ((length healthy =? 0)%nat = false) as -> by (rewrite Eh; reflexivity).
  assert ((length healthy =? 1)%nat = false) as -> by (rewrite Eh; reflexivity).
  rewrite Halg. cbn.
  unfold weightedRoundRobin, bind, this, ret. cbn.
  destruct (weightedRoundRobin_loop_finds lb (rnd * totalWeight lb healthy) healthy 0)
    as [o Ho].
  - rewrite Eh. discriminate.
  - apply Qle_bool_iff, Qlt_le_weak, Hhi.
  - rewrite Ho.
    destruct (weightedRoundRobin_loop_first lb _ healthy 0 o Ho)
      as (before & rest & Hsplit & Hle & Hlt).
    exists before, o, rest. repeat split.
    + exact Hsplit.
    + apply Qle_bool_iff, Hle.
    + intros k Hk Hc. apply Qle_bool_iff in Hc.
      pose proof (Hlt k Hk) as Hf. unfold totalWeight, currentWeightAfter in Hc, Hf.
      congruence.
Qed.

(** Both origins healthy with weight 1 each and the draw 3/4: [r] is 3/2,
    past the cumulative weight 1 of [originA] and within the 2 of
    [originB]. *)
Lemma weightedRoundRobin_selects_interval_witness :
  exists before o rest,
    getHealthyOrigins checkerBothHealthy 2000 (balancerWith WEIGHTED_ROUND_ROBIN)
    = (before ++ o :: rest)%list
    /\ o = originB
    /\ getOptimalOrigin checkerBothHealthy 2000 (3 # 4) context0
         (balancerWith WEIGHTED_ROUND_ROBIN)
       = (Ok (Some o), balancerWith WEIGHTED_ROUND_ROBIN).
Proof.
  destruct (weightedRoundRobin_selects_interval checkerBothHealthy 2000 (3 # 4) context0
              (balancerWith WEIGHTED_ROUND_ROBIN))
    as (before & o & rest & Hsplit & Hret & _).
  - reflexivity.
  - vm_compute. lia.
  - vm_compute. discriminate.
  - vm_compute. reflexivity.
  - exists before, o, rest. split; [exact Hsplit | split; [| exact Hret]].
    assert (getOptimalOrigin checkerBothHealthy 2000 (3 # 4) context0
              (balancerWith WEIGHTED_ROUND_ROBIN)
            = (Ok (Some originB), balancerWith WEIGHTED_ROUND_ROBIN)) as Hrun
      by (vm_compute; reflexivity).
    rewrite Hret in Hrun. congruence.
Defined.

(** ** The health score *)

Section HealthScore.

Lemma Qfloor_unique (q : Q) (z : Z) :
  (inject_Z z <= q)%Q -> (q < inject_Z (z + 1))%Q -> Qfloor q = z.
Proof.
  intros Hlo Hhi.
  pose proof (Qfloor_le q) as Hfl. pose proof (Qlt_floor q) as Hfu.
  assert (z < Qfloor q + 1) as H1.
  { rewrite Zlt_Qlt. eapply Qle_lt_trans; [exact Hlo | exact Hfu]. }
  assert (Qfloor q < z + 1) as H2.
  { rewrite Zlt_Qlt. eapply Qle_lt_trans; [exact Hfl | exact Hhi]. }
  lia.
Qed.

Lemma Math_round_nearest (q : Q) : Math_round q = Spec.round q.
Proof.
  unfold Math_round, Spec.round.
  pose proof (Qfloor_le q) as Hfl. pose proof (Qlt_floor q) as Hfu.
  rewrite inject_Z_plus in Hfu. change (inject_Z 1) with 1%Q in Hfu.
  destruct (Qle_bool (1 # 2) (q - inject_Z (Qfloor q))) eqn:E.
  - apply Qle_bool_iff in E. apply Qfloor_unique.
    + rewrite inject_Z_plus. change (inject_Z 1) with 1%Q. lra.
    + rewrite !inject_Z_plus. change (inject_Z 1) with 1%Q. lra.
  - assert (q - inject_Z (Qfloor q) < 1 # 2)%Q as Hlt.
    { apply Qnot_le_lt. intros Hc. apply Qle_bool_iff in Hc. congruence. }
    apply Qfloor_unique.
    + lra.
    + rewrite inject_Z_plus. change (inject_Z 1) with 1%Q. lra.
Qed.

Lemma Math_max_Qmax (a b : Q) : (Math_max a b == Qmax a b)%Q.
Proof.
  unfold Math_max. destruct (Qle_bool a b) eqn:E.
  - apply Qle_bool_iff in E. symmetry. apply Q.max_r. exact E.
  - assert (b < a)%Q as Hlt.
    { apply Qnot_le_lt. intros Hc. apply Qle_bool_iff in Hc. congruence. }
    symmetry. apply Q.max_l. apply Qlt_le_weak, Hlt.
Qed.

Lemma or_Q_zero (q : Q) : (or_Q (Some q) 0 == q)%Q.
Proof.
  unfold or_Q. destruct (Qeq_bool q 0) eqn:E; [| reflexivity].
  apply Qeq_bool_iff in E. symmetry. exact E.
Qed.

Lemma recentErrors_window (hc : HealthChecker.t) (now : Z) (m : Metrics) :
  Z.of_nat
    (length (List.filter (fun e => now - errTimestamp e <? checkInterval hc * 5) (errors m)))
  = Spec.recentErrorCount hc now m.
Proof.
  unfold Spec.recentErrorCount. do 2 f_equal.
  apply List.filter_ext. intros e.
  destruct (Z.ltb_spec (now - errTimestamp e) (checkInterval hc * 5));
    destruct (Z.ltb_spec (now - 5 * checkInterval hc) (errTimestamp e)); lia.
Qed.

End HealthScore.

(** C4. For metrics that record at least one check, [calculateHealthScore]
    is the rounded weighted sum of the specification: 0.4 of the success
    score, 0.3 of the clamped response-time score and 0.3 of the clamped
    recent-error score, the recent errors being those logged within the last
    five probe intervals. *)
Theorem calculateHealthScore_formula (hc : HealthChecker.t) (now : Z) (m : Metrics) :
  1 <= totalChecks m ->
  calculateHealthScore hc now m
  = Spec.healthScore (successRate m) (averageResponseTime m)
      (thResponseTime (healthThresholds hc)) (Spec.recentErrorCount hc now m).
Proof.
  intros Hchecks. unfold calculateHealthScore, Spec.healthScore.
  destruct (Z.eqb_spec (totalChecks m) 0) as [E | _]; [lia |].
  rewrite <- Math_round_nearest. unfold Math_round.
  apply Qfloor_comp. apply Qplus_comp; [| reflexivity].
  rewrite !Math_max_Qmax, or_Q_zero, recentErrors_window.
  set (ratio := (averageResponseTime m / thResponseTime (healthThresholds hc))%Q).
  set (errs := Spec.recentErrorCount hc now m).
  assert (100 - ratio * 100 == 100 * (1 - ratio))%Q as -> by ring.
  assert (inject_Z (errs * 20) == 20 * inject_Z errs)%Q as ->.
  { rewrite inject_Z_mult. change (inject_Z 20) with 20%Q. ring. }
  ring.
Qed.

(** The metrics of an origin after one failed and one passed probe round:
    success rate 1/2, mean response time 200 ms, one recent error, score
    [round(20 + 27 + 24) = 71]. *)
Lemma calculateHealthScore_formula_witness :
  1 <= totalChecks metricsOneFailure
  /\ calculateHealthScore checkerEmpty 41000 metricsOneFailure
     = Spec.healthScore (successRate metricsOneFailure)
         (averageResponseTime metricsOneFailure)
         (thResponseTime (healthThresholds checkerEmpty))
         (Spec.recentErrorCount checkerEmpty 41000 metricsOneFailure)
  /\ calculateHealthScore checkerEmpty 41000 metricsOneFailure = 71.
Proof.
  split; [| split].
  - vm_compute. discriminate.
  - apply (calculateHealthScore_formula checkerEmpty 41000 metricsOneFailure).
    vm_compute. discriminate.
  - vm_compute. reflexivity.
Defined.

(** ** Cache admission *)

Section Eligibility.
Import CacheManager.

Lemma or_string_nonempty (s d : string) : s <> "" -> or_string (Some s) d = s.
Proof.
  intros Hne. unfold or_string, or_str, truthy_str.
  destruct (String.eqb_spec s ""); [contradiction | reflexivity].
Qed.

Lemma or_string_empty_default (s : string) : or_string (Some s) "" = s.
Proof.
  unfold or_string, or_str, truthy_str.
  destruct (String.eqb_spec s ""); cbn; congruence.
Qed.

Lemma truthy_str_false (s : string) : truthy_str (Some s) = false -> s = "".
Proof.
  unfold truthy_str. destruct (String.eqb_spec s ""); [trivial | discriminate].
Qed.

(** What [isCacheable] requires of a response it admits. *)
Lemma isCacheable_requires (r : Response) (strategy : Strategy) :
  isCacheable r strategy = true ->
  (200 <= status r <= 299 \/ status r = 404)
  /\ (forall cc, headers r !! "cache-control" = Some cc ->
        includes cc "no-store" = false /\ includes cc "no-cache" = false)
  /\ (forall v, headers r !! "authorization" = Some v -> v = "")
  /\ (forall v, headers r !! "set-cookie" = Some v -> v = "")
  /\ (forall v n, headers r !! "content-length" = Some v ->
        parseInt v = Some n -> n <= sizeLimit).
Proof.
  unfold isCacheable, headers_get, ok.
  destruct (negb _ && negb _) eqn:Estatus; [discriminate |].
  destruct (includes _ "no-cache" || includes _ "no-store") eqn:Ecc; [discriminate |].
  destruct (truthy_str _ || truthy_str _) eqn:Eauth; [discriminate |].
  intros Hlen.
  apply orb_false_iff in Ecc as [Enc Ens]. apply orb_false_iff in Eauth as [Ea Ec].
  split; [| split; [| split; [| split]]].
  - apply andb_false_iff in Estatus as [E | E]; apply negb_false_iff in E.
    + left. apply andb_true_iff in E as [E1 E2]. lia.
    + right. lia.
  - intros cc Hcc. rewrite Hcc, or_string_empty_default in Ens, Enc.
    split; assumption.
  - intros v Hv. rewrite Hv in Ea. apply truthy_str_false, Ea.
  - intros v Hv. rewrite Hv in Ec. apply truthy_str_false, Ec.
  - intros v n Hv Hn. rewrite Hv in Hlen.
    destruct (String.eqb_spec v "") as [-> | Hne]; [discriminate Hn |].
    rewrite (or_string_nonempty v "0" Hne), Hn in Hlen.
    destruct (Z.gtb_spec n sizeLimit); [discriminate | lia].
Qed.

End Eligibility.

(** C7, as the specification states it, fails on two responses that [set]
    stores: a 200 response without headers whose body has one byte more than
    10 MiB, and a 200 response that carries a set-cookie header with the
    empty value. *)
Lemma set_eligibility_counterexample :
  (CacheManager.set collaboratorsOk "https://edge.example/a" bigResponse cacheContext0 = true
   /\ ~ CacheManager.bodyLength bigResponse <= 10 * 1024 * 1024)
  /\ (CacheManager.set collaboratorsOk "https://edge.example/a" emptyCookieResponse
        cacheContext0 = true
      /\ CacheManager.headers emptyCookieResponse !! "set-cookie" <> None).
Proof.
  split; split.
  - vm_compute. reflexivity.
  - vm_compute. intros H. apply H. reflexivity.
  - vm_compute. reflexivity.
  - vm_compute. discriminate.
Qed.

(** C7, amended. [set] resolves to [true] only for a response whose status
    is 2xx or 404, whose cache-control holds neither [no-store] nor
    [no-cache], whose authorization and set-cookie headers are absent or
    empty, and whose content-length header, where it parses as an integer,
    declares at most 10 MiB. *)
Theorem set_accepts_only_eligible
    (env : CacheManager.Collaborators) (url : string) (r : CacheManager.Response)
    (context : CacheManager.Context) :
  CacheManager.set env url r context = true ->
  (200 <= CacheManager.status r <= 299 \/ CacheManager.status r = 404)
  /\ (forall cc, CacheManager.headers r !! "cache-control" = Some cc ->
        includes cc "no-store" = false /\ includes cc "no-cache" = false)
  /\ (forall v, CacheManager.headers r !! "authorization" = Some v -> v = "")
  /\ (forall v, CacheManager.headers r !! "set-cookie" = Some v -> v = "")
  /\ (forall v n, CacheManager.headers r !! "content-length" = Some v ->
        parseInt v = Some n -> n <= CacheManager.sizeLimit).
Proof.
  unfold CacheManager.set. intros Hset.
  destruct (CacheManager.isCacheable r _) eqn:E; [| discriminate].
  exact (isCacheable_requires r _ E).
Qed.

Lemma set_accepts_only_eligible_witness :
  CacheManager.set collaboratorsOk "https://edge.example/a" htmlResponse cacheContext0 = true
  /\ (200 <= CacheManager.status htmlResponse <= 299 \/ CacheManager.status htmlResponse = 404)
  /\ (forall v, CacheManager.headers htmlResponse !! "set-cookie" = Some v -> v = "").
Proof.
  assert (CacheManager.set collaboratorsOk "https://edge.example/a" htmlResponse cacheContext0
          = true) as Hset by (vm_compute; reflexivity).
  destruct (set_accepts_only_eligible collaboratorsOk "https://edge.example/a" htmlResponse
              cacheContext0 Hset) as (Hstatus & _ & _ & Hcookie & _).
  split; [exact Hset | split; [exact Hstatus | exact Hcookie]].
Defined.

(** ** Failover while the failed origin still counts as healthy *)

(** C1. Both origins are healthy and [originA] is reported as failed;
    [originB] is a healthy alternative, yet the origin handed back is
    [originA] itself, under round-robin with the cursor at 0 and under the
    initial health-score algorithm with the draw 0: the selection runs over
    all healthy origins, the failed one included. *)
Theorem getFailoverOrigin_returns_failed_origin :
  List.filter (isOriginHealthy checkerBothHealthy 2000)
    (List.filter (fun o => negb (String.eqb o originA)) (origins balancerAB)) = [originB]
  /\ fst (getFailoverOrigin checkerBothHealthy 2000 0 originA context0
            (balancerWith ROUND_ROBIN)) = Ok (Some originA)
  /\ fst (getFailoverOrigin checkerBothHealthy 2000 0 originA context0 balancerAB)
     = Ok (Some originA).
Proof. repeat split; vm_compute; reflexivity. Qed.

(** ** The latency algorithm *)

(** [latencyBased] throws before it looks at any origin. *)
Lemma latencyBased_throws (now : Z) (l : list string) (context : Context)
    (lb : LoadBalancer.t) :
  latencyBased now l context lb = (Throw (ReferenceError "origins"), lb).
Proof. reflexivity. Qed.

(** The loop the method would run over a non-empty array picks an origin of
    lowest average latency. *)
Lemma latencyBased_loop_lowest (now : Z) (lb : LoadBalancer.t) (l : list string) :
  l <> [] ->
  exists o, fst (latencyBased_loop now lb l) = Some o
            /\ In o l
            /\ forall o', In o' l -> getAverageLatency now o lb <= getAverageLatency now o' lb.
Proof.
  intros Hne. unfold latencyBased_loop.
  assert (forall (rest : list string) (seen : list string) (acc : option string * option Z),
             (match acc with
              | (Some o, Some best) =>
                  In o seen /\ best = getAverageLatency now o lb
                  /\ forall o', In o' seen -> best <= getAverageLatency now o' lb
              | (_, None) => seen = []
              | (None, Some _) => False
              end) ->
             (seen ++ rest)%list <> [] ->
             exists o,
               fst (fold_left
                      (fun '(bestOrigin, bestLatency) origin =>
                         let avgLatency := getAverageLatency now origin lb in
                         let better := match bestLatency with
                                       | None => true
                                       | Some best => avgLatency <? best
                                       end in
                         if better then (Some origin, Some avgLatency)
                         else (bestOrigin, bestLatency))
                      rest acc) = Some o
               /\ In o (seen ++ rest)%list
               /\ forall o', In o' (seen ++ rest)%list ->
                    getAverageLatency now o lb <= getAverageLatency now o' lb) as Hgen.
  { induction rest as [| x rest IH]; intros seen [bo bl] Hacc Hnonempty.
    - rewrite app_nil_r in *. cbn.
      destruct bo as [o |], bl as [best |]; try contradiction; try congruence.
      destruct Hacc as (Hin & -> & Hmin). exists o. auto.
    - cbn [fold_left].
      replace (seen ++ x :: rest)%list with ((seen ++ [x]) ++ rest)%list
        by (rewrite <- app_assoc; reflexivity).
      apply IH.
      + destruct bl as [best |].
        * destruct bo as [o |]; [| contradiction].
          destruct Hacc as (Hin & -> & Hmin). cbn.
          destruct (Z.ltb_spec (getAverageLatency now x lb) (getAverageLatency now o lb)).
          -- split; [apply in_or_app; right; left; reflexivity |].
             split; [reflexivity |].
             intros o' Hin'. apply in_app_or in Hin' as [Hs | [<- | []]]; [| lia].
             specialize (Hmin o' Hs). lia.
          -- split; [apply in_or_app; left; exact Hin |].
             split; [reflexivity |].
             intros o' Hin'. apply in_app_or in Hin' as [Hs | [<- | []]]; [| lia].
             exact (Hmin o' Hs).
        * assert (seen = []) as -> by (destruct bo; exact Hacc).
          cbn. split; [left; reflexivity |].
          split; [reflexivity |]. intros o' [<- | []]. lia.
      + destruct seen; discriminate. }
  destruct (Hgen l [] (l !! 0%nat, None)) as (o & Ho & Hin & Hmin).
  - destruct (l !! 0%nat); reflexivity.
  - exact Hne.
  - exists o. auto.
Qed.

(** C2. Under the latency algorithm with both origins healthy and a
    recorded sample for each (100 ms for [originA], 300 ms for [originB]),
    selection throws a [ReferenceError] instead of returning [originA], the
    origin of lowest average latency. *)
Theorem latencyBased_selection_throws :
  currentAlgorithm balancerLatency = LATENCY_BASED
  /\ getHealthyOrigins checkerBothHealthy 2000 balancerLatency = [originA; originB]
  /\ getAverageLatency 2000 originA balancerLatency = 100
  /\ getAverageLatency 2000 originB balancerLatency = 300
  /\ fst (getOptimalOrigin checkerBothHealthy 2000 0 context0 balancerLatency)
     = Throw (ReferenceError "origins")
  /\ fst (latencyBased_loop 2000 balancerLatency [originA; originB]) = Some originA.
Proof. repeat split; vm_compute; reflexivity. Qed.

(** * Further properties of the load balancer *)

Section Registry.

Lemma initializeWeights_fold_lookup (l : list string) (acc : LoadBalancer.t) (o : string) :
  let final :=
    fold_left
      (fun acc origin =>
         set_connectionCounts (<[origin := 0]> (connectionCounts acc))
           (set_weights (<[origin := 1%Q]> (weights acc)) acc))
      l acc in
  weights final !! o = (if decide (o ∈ l) then Some 1%Q else weights acc !! o)
  /\ connectionCounts final !! o
     = (if decide (o ∈ l) then Some 0 else connectionCounts acc !! o)
  /\ origins final = origins acc
  /\ currentAlgorithm final = currentAlgorithm acc
  /\ roundRobinIndex final = roundRobinIndex acc
  /\ latencyHistory final = latencyHistory acc.
Proof.
  revert acc. induction l as [| x l IH]; intros acc; cbn.
  - repeat split; reflexivity.
  - destruct (IH (set_connectionCounts (<[x := 0]> (connectionCounts acc))
                    (set_weights (<[x := 1%Q]> (weights acc)) acc)))
      as (Hw & Hc & Ho & Ha & Hi & Hl).
    cbn in *. rewrite Hw, Hc, Ho, Ha, Hi, Hl. repeat split.
    + destruct (decide (o ∈ l)) as [Hin | Hnin].
      * rewrite decide_True by (right; exact Hin). reflexivity.
      * destruct (decide (x = o)) as [-> | Hne].
        -- rewrite decide_True by left. apply lookup_insert_eq.
        -- rewrite decide_False by (intros Hc'; inversion Hc'; subst; tauto).
           apply lookup_insert_ne, Hne.
    + destruct (decide (o ∈ l)) as [Hin | Hnin].
      * rewrite decide_True by (right; exact Hin). reflexivity.
      * destruct (decide (x = o)) as [-> | Hne].
        -- rewrite decide_True by left. apply lookup_insert_eq.
        -- rewrite decide_False by (intros Hc'; inversion Hc'; subst; tauto).
           apply lookup_insert_ne, Hne.
Qed.

End Registry.

Lemma new_fields (l : list string) (o : string) :
  weights (LoadBalancer.new (Some l)) !! o = (if decide (o ∈ l) then Some 1%Q else None)
  /\ connectionCounts (LoadBalancer.new (Some l)) !! o
     = (if decide (o ∈ l) then Some 0 else None)
  /\ origins (LoadBalancer.new (Some l)) = l
  /\ currentAlgorithm (LoadBalancer.new (Some l)) = HEALTH_SCORE
  /\ roundRobinIndex (LoadBalancer.new (Some l)) = 0%nat
  /\ latencyHistory (LoadBalancer.new (Some l)) = ∅.
Proof.
  unfold LoadBalancer.new, initializeGeographicMapping, initializeWeights. cbn.
  match goal with
  | |- context [fold_left ?f l ?acc] =>
      destruct (initializeWeights_fold_lookup l acc o) as (Hw & Hc & Ho & Ha & Hi & Hl)
  end.
  cbn in *. rewrite Hw, Hc, Ho, Ha, Hi, Hl.
  repeat split; destruct (decide (o ∈ l)); reflexivity.
Qed.

(** X1. The constructor gives every configured origin the weight 1 and the
    connection count 0, records nothing for any other key, keeps the origins
    as given and starts with the health-score algorithm and the cursor 0. *)
Theorem new_registers_every_origin (l : list string) (o : string) :
  weights (LoadBalancer.new (Some l)) !! o = (if decide (o ∈ l) then Some 1%Q else None)
  /\ connectionCounts (LoadBalancer.new (Some l)) !! o
     = (if decide (o ∈ l) then Some 0 else None)
  /\ origins (LoadBalancer.new (Some l)) = l
  /\ currentAlgorithm (LoadBalancer.new (Some l)) = HEALTH_SCORE
  /\ roundRobinIndex (LoadBalancer.new (Some l)) = 0%nat
  /\ latencyHistory (LoadBalancer.new (Some l)) = ∅.
Proof. exact (new_fields l o). Qed.

Section RoundRobin.

Lemma roundRobin_run (l : list string) (lb : LoadBalancer.t) :
  roundRobin l lb
  = (Ok (l !! (roundRobinIndex lb mod length l)%nat),
     set_roundRobinIndex (S (roundRobinIndex lb)) lb).
Proof. reflexivity. Qed.

Lemma roundRobin_iter_index (l : list string) (lb : LoadBalancer.t) (k : nat) :
  roundRobinIndex (Nat.iter k (fun s => snd (roundRobin l s)) lb)
  = (roundRobinIndex lb + k)%nat.
Proof.
  induction k as [| k IH]; [cbn; lia |].
  change (Nat.iter (S k) (fun s => snd (roundRobin l s)) lb)
    with (snd (roundRobin l (Nat.iter k (fun s => snd (roundRobin l s)) lb))).
  rewrite roundRobin_run. cbn [snd].
  unfold set_roundRobinIndex. cbn [roundRobinIndex]. rewrite IH. lia.
Qed.

End RoundRobin.

(** X2. Round-robin over a fixed non-empty array rotates: after [k] calls
    the next call returns the element at position [(cursor + k) mod n], an
    element of the array, and the call [n] calls later returns the same
    one. *)
Theorem roundRobin_rotates_through (l : list string) (lb : LoadBalancer.t) (k : nat) :
  l <> [] ->
  let calls (j : nat) := Nat.iter j (fun s => snd (roundRobin l s)) lb in
  exists o,
    fst (roundRobin l (calls k)) = Ok (Some o)
    /\ l !! ((roundRobinIndex lb + k) mod length l)%nat = Some o
    /\ fst (roundRobin l (calls (k + length l)%nat)) = Ok (Some o).
Proof.
  intros Hne calls.
  assert (0 < length l)%nat as Hlen by (destruct l; [congruence | cbn; lia]).
  destruct (lookup_lt_is_Some_2 l ((roundRobinIndex lb + k) mod length l)%nat) as [o Ho].
  { apply Nat.mod_upper_bound. lia. }
  exists o. subst calls. cbn beta.
  rewrite !roundRobin_run. cbn [fst].
  rewrite !roundRobin_iter_index.
  repeat split; [congruence | exact Ho |].
  replace (roundRobinIndex lb + (k + length l))%nat
    with (roundRobinIndex lb + k + 1 * length l)%nat by lia.
  rewrite Nat.Div0.mod_add. congruence.
Qed.

Lemma roundRobin_rotates_through_witness :
  exists o,
    fst (roundRobin [originA; originB]
           (Nat.iter 3 (fun s => snd (roundRobin [originA; originB] s)) balancerAB))
    = Ok (Some o)
    /\ [originA; originB] !! ((roundRobinIndex balancerAB + 3) mod 2)%nat = Some o
    /\ fst (roundRobin [originA; originB]
              (Nat.iter (3 + 2) (fun s => snd (roundRobin [originA; originB] s)) balancerAB))
       = Ok (Some o).
Proof.
  apply (roundRobin_rotates_through [originA; originB] balancerAB 3). discriminate.
Defined.

Section LeastConnections.

Variable counts : gmap string Z.

Lemma leastConnections_loop_scan (rest before after_ : list string) (sel : string) :
  (forall x, In x before -> or_Z (counts !! sel) 0 < or_Z (counts !! x) 0) ->
  (forall x, In x after_ -> or_Z (counts !! sel) 0 <= or_Z (counts !! x) 0) ->
  exists o b a,
    leastConnections_loop counts rest (sel, or_Z (counts !! sel) 0) = (o, or_Z (counts !! o) 0)
    /\ (before ++ sel :: after_ ++ rest)%list = (b ++ o :: a)%list
    /\ (forall x, In x b -> or_Z (counts !! o) 0 < or_Z (counts !! x) 0)
    /\ (forall x, In x a -> or_Z (counts !! o) 0 <= or_Z (counts !! x) 0).
Proof.
  unfold leastConnections_loop.
  revert before after_ sel.
  induction rest as [| x rest IH]; intros before after_ sel Hb Ha.
  - exists sel, before, after_. rewrite app_nil_r. cbn. auto.
  - cbn [fold_left].
    destruct (Z.ltb_spec (or_Z (counts !! x) 0) (or_Z (counts !! sel) 0)) as [Hlt | Hge].
    + destruct (IH (before ++ sel :: after_)%list [] x) as (o & b & a & Hrun & Hsplit & Hb' & Ha').
      * intros y Hy. apply in_app_or in Hy as [Hy | [<- | Hy]].
        -- specialize (Hb y Hy). lia.
        -- exact Hlt.
        -- specialize (Ha y Hy). lia.
      * intros y [].
      * exists o, b, a. repeat split; try assumption.
        rewrite <- Hsplit. cbn. rewrite <- !app_assoc. reflexivity.
    + destruct (IH before (after_ ++ [x])%list sel) as (o & b & a & Hrun & Hsplit & Hb' & Ha').
      * exact Hb.
      * intros y Hy. apply in_app_or in Hy as [Hy | [<- | []]]; [apply Ha, Hy | exact Hge].
      * exists o, b, a. repeat split; try assumption.
        rewrite <- Hsplit. rewrite <- !app_assoc. reflexivity.
Qed.

Lemma leastConnections_loop_first_least (first : string) (rest : list string) :
  exists o b a,
    leastConnections_loop counts (first :: rest) (first, or_Z (counts !! first) 0) = (o, or_Z (counts !! o) 0)
    /\ first :: rest = (b ++ o :: a)%list
    /\ (forall x, In x b -> or_Z (counts !! o) 0 < or_Z (counts !! x) 0)
    /\ (forall x, In x a -> or_Z (counts !! o) 0 <= or_Z (counts !! x) 0).
Proof.
  destruct (leastConnections_loop_scan rest [] [] first) as (o & b & a & Hrun & Hsplit & Hb & Ha).
  - intros x [].
  - intros x [].
  - exists o, b, a. repeat split; try assumption.
    unfold leastConnections_loop in *. cbn [fold_left].
    rewrite Z.ltb_irrefl. exact Hrun.
Qed.

End LeastConnections.

Lemma leastConnections_run (l : list string) (lb : LoadBalancer.t) :
  l <> [] ->
  exists o before rest,
    leastConnections l lb
    = (Ok (Some o),
       set_connectionCounts
         (<[o := or_Z (connectionCounts lb !! o) 0 + 1]> (connectionCounts lb)) lb)
    /\ l = (before ++ o :: rest)%list
    /\ (forall x, In x before ->
          or_Z (connectionCounts lb !! o) 0 < or_Z (connectionCounts lb !! x) 0)
    /\ (forall x, In x rest ->
          or_Z (connectionCounts lb !! o) 0 <= or_Z (connectionCounts lb !! x) 0).
Proof.
  intros Hne. destruct l as [| first rest]; [congruence |].
  destruct (leastConnections_loop_first_least (connectionCounts lb) first rest)
    as (o & b & a & Hrun & Hsplit & Hb & Ha).
  exists o, b, a. repeat split; try assumption.
  unfold leastConnections, bind, this, ret, modify. cbn -[leastConnections_loop].
  rewrite Hrun. reflexivity.
Qed.

(** X3. On a non-empty array least-connections returns the first origin
    whose connection count is the lowest of the array (every earlier origin
    has strictly more connections, every later one at least as many) and
    raises that origin's count by one, changing nothing else. *)
Theorem leastConnections_selects_first_minimum (l : list string) (lb : LoadBalancer.t) :
  l <> [] ->
  exists o before rest,
    leastConnections l lb
    = (Ok (Some o),
       set_connectionCounts
         (<[o := or_Z (connectionCounts lb !! o) 0 + 1]> (connectionCounts lb)) lb)
    /\ l = (before ++ o :: rest)%list
    /\ (forall x, In x before ->
          or_Z (connectionCounts lb !! o) 0 < or_Z (connectionCounts lb !! x) 0)
    /\ (forall x, In x rest ->
          or_Z (connectionCounts lb !! o) 0 <= or_Z (connectionCounts lb !! x) 0).
Proof. exact (leastConnections_run l lb). Qed.

Lemma leastConnections_selects_first_minimum_witness :
  exists o before rest,
    leastConnections [originA; originB] balancerAB
    = (Ok (Some o),
       set_connectionCounts
         (<[o := or_Z (connectionCounts balancerAB !! o) 0 + 1]>
            (connectionCounts balancerAB)) balancerAB)
    /\ [originA; originB] = (before ++ o :: rest)%list
    /\ (forall x, In x before ->
          or_Z (connectionCounts balancerAB !! o) 0
          < or_Z (connectionCounts balancerAB !! x) 0)
    /\ (forall x, In x rest ->
          or_Z (connectionCounts balancerAB !! o) 0
          <= or_Z (connectionCounts balancerAB !! x) 0).
Proof.
  apply (leastConnections_selects_first_minimum [originA; originB] balancerAB). discriminate.
Defined.

(** X4. With non-negative connection counts, selecting by least connections
    and then releasing the selected origin leaves every origin with the
    count it had: the increment of the selection is undone. *)
Theorem leastConnections_then_release_restores
    (l : list string) (lb : LoadBalancer.t) (o : string) (lb1 lb2 : LoadBalancer.t) :
  map_Forall (fun _ c => 0 <= c) (connectionCounts lb) ->
  leastConnections l lb = (Ok (Some o), lb1) ->
  releaseConnection o lb1 = (Ok tt, lb2) ->
  forall x, or_Z (connectionCounts lb2 !! x) 0 = or_Z (connectionCounts lb !! x) 0.
Proof.
  intros Hnonneg Hsel Hrel x.
  destruct l as [| first rest].
  { cbn in Hsel. discriminate. }
  destruct (leastConnections_run (first :: rest) lb) as (o' & b & a & Hrun & _);
    [discriminate |].
  rewrite Hrun in Hsel. injection Hsel as <- <-.
  unfold releaseConnection, bind, this, modify in Hrel. cbn in Hrel.
  injection Hrel as <-. cbn.
  pose proof (or_Z_nonneg (connectionCounts lb) o' Hnonneg) as Hpos.
  rewrite lookup_insert_eq.
  destruct (decide (o' = x)) as [-> | Hne].
  - rewrite lookup_insert_eq.
    unfold or_Z at 2. 
    destruct (Z.eqb_spec (or_Z (connectionCounts lb !! x) 0 + 1) 0) as [E | E]; [lia |].
    replace (or_Z (connectionCounts lb !! x) 0 + 1 - 1) with (or_Z (connectionCounts lb !! x) 0)
      by lia.
    rewrite Z.max_r by lia.
    unfold or_Z at 1. destruct (Z.eqb_spec (or_Z (connectionCounts lb !! x) 0) 0); lia.
  - rewrite !lookup_insert_ne by exact Hne. reflexivity.
Qed.

Lemma leastConnections_then_release_restores_witness :
  or_Z (connectionCounts
          (snd (releaseConnection originA (snd (leastConnections [originA; originB] balancerAB))))
        !! originA) 0
  = or_Z (connectionCounts balancerAB !! originA) 0.
Proof.
  apply (leastConnections_then_release_restores [originA; originB] balancerAB originA
           (snd (leastConnections [originA; originB] balancerAB))).
  - apply map_Forall_lookup. intros k c Hk.
    assert (connectionCounts balancerAB
            = <[originB := 0]> (<[originA := 0]> ∅)) as E by (vm_compute; reflexivity).
    rewrite E in Hk.
    apply lookup_insert_Some in Hk as [[_ <-] | [_ Hk]]; [lia |].
    apply lookup_insert_Some in Hk as [[_ <-] | [_ Hk]]; [lia |].
    rewrite lookup_empty in Hk. discriminate.
  - vm_compute. reflexivity.
  - reflexivity.
Defined.

Section LatencyHistory.

Lemma recordLatency_bounded (now : Z) (o : string) (lat : Q) (lb : LoadBalancer.t) :
  exists lb' h,
    recordLatency now o lat lb = (Ok tt, lb')
    /\ origins lb' = origins lb
    /\ currentAlgorithm lb' = currentAlgorithm lb
    /\ latencyHistory lb' !! o = Some h
    /\ (length h <= 100)%nat
    /\ (forall o', o' <> o -> latencyHistory lb' !! o' = latencyHistory lb !! o').
Proof.
  unfold recordLatency, bind, this, modify. cbv beta iota zeta.
  set (pushed := (_ ++ [_])%list).
  eexists. eexists. split; [reflexivity |].
  unfold set_latencyHistory. cbn [latencyHistory origins currentAlgorithm].
  split; [reflexivity |]. split; [reflexivity |].
  split; [apply lookup_insert_eq |].
  split.
  - destruct (Nat.ltb_spec 100 (length pushed)); [rewrite length_skipn; lia | lia].
  - intros o' Hne. apply lookup_insert_ne. congruence.
Qed.

End LatencyHistory.

(** X5. [recordLatency] keeps the new sample as the last of the origin's
    history, keeps that history within 100 samples by dropping the oldest
    ones (the history is the tail of the old one followed by the new
    sample), and leaves the histories of the other origins alone. *)
Theorem recordLatency_keeps_last_100
    (now : Z) (o : string) (lat : Q) (lb : LoadBalancer.t) :
  let old := match latencyHistory lb !! o with Some h => h | None => [] end in
  let sample := {| latency := lat; timestamp := now |} in
  exists lb' h dropped,
    recordLatency now o lat lb = (Ok tt, lb')
    /\ latencyHistory lb' !! o = Some h
    /\ (old ++ [sample])%list = (dropped ++ h)%list
    /\ last h = Some sample
    /\ (length h <= 100)%nat
    /\ ((length old < 100)%nat -> dropped = [])
    /\ (forall o', o' <> o -> latencyHistory lb' !! o' = latencyHistory lb !! o').
Proof.
  intros old sample.
  unfold recordLatency, bind, this, modify. cbv beta iota zeta. fold old. fold sample.
  set (pushed := (old ++ [sample])%list).
  assert (length pushed = S (length old)) as Hlen
    by (unfold pushed; rewrite length_app; cbn; lia).
  destruct (Nat.ltb_spec 100 (length pushed)) as [Hbig | Hsmall].
  - eexists. exists (skipn (length pushed - 100) pushed), (firstn (length pushed - 100) pushed).
    split; [reflexivity |]. unfold set_latencyHistory. cbn [latencyHistory].
    split; [apply lookup_insert_eq |].
    split; [symmetry; apply firstn_skipn |].
    split.
    { unfold pushed. rewrite skipn_app, length_app. cbn [length].
      replace (length old + 1 - 100 - length old)%nat with 0%nat by lia.
      cbn [skipn]. apply last_snoc. }
    split; [rewrite length_skipn; lia |].
    split; [intros Hold; lia |].
    intros o' Hne. apply lookup_insert_ne. congruence.
  - eexists. exists pushed, [].
    split; [reflexivity |]. unfold set_latencyHistory. cbn [latencyHistory].
    split; [apply lookup_insert_eq |].
    split; [reflexivity |].
    split; [unfold pushed; apply last_snoc |].
    split; [lia |].
    split; [reflexivity |].
    intros o' Hne. apply lookup_insert_ne. congruence.
Qed.

Section AverageLatency.

Lemma latency_sum_bounds (lo hi : Q) (l : list Sample) (acc : Q) :
  Forall (fun m => (lo <= latency m)%Q /\ (latency m <= hi)%Q) l ->
  (acc + inject_Z (Z.of_nat (length l)) * lo
   <= fold_left (fun sum m => sum + latency m) l acc)%Q
  /\ (fold_left (fun sum m => sum + latency m) l acc
      <= acc + inject_Z (Z.of_nat (length l)) * hi)%Q.
Proof.
  revert acc. induction l as [| m l IH]; intros acc Hall.
  - cbn. split; ring_simplify; apply Qle_refl.
  - inversion Hall as [| ? ? [Hlo Hhi] Hrest]; subst.
    destruct (IH (acc + latency m)%Q Hrest) as [IHlo IHhi].
    cbn [fold_left length].
    rewrite Nat2Z.inj_succ. unfold Z.succ. rewrite inject_Z_plus.
    change (inject_Z 1) with 1%Q.
    split.
    + eapply Qle_trans; [| exact IHlo]. lra.
    + eapply Qle_trans; [exact IHhi |]. lra.
Qed.

Lemma Math_round_between (q : Q) (lo hi : Z) :
  (inject_Z lo <= q)%Q -> (q <= inject_Z hi)%Q -> lo <= Math_round q <= hi.
Proof.
  intros Hlo Hhi. unfold Math_round.
  pose proof (Qfloor_le (q + (1 # 2))) as Hfl.
  pose proof (Qlt_floor (q + (1 # 2))) as Hfu.
  rewrite inject_Z_plus in Hfu. change (inject_Z 1) with 1%Q in Hfu.
  split.
  - assert (lo < Qfloor (q + (1 # 2)) + 1) as H; [| lia].
    rewrite Zlt_Qlt, inject_Z_plus. change (inject_Z 1) with 1%Q. lra.
  - assert (Qfloor (q + (1 # 2)) < hi + 1) as H; [| lia].
    rewrite Zlt_Qlt, inject_Z_plus. change (inject_Z 1) with 1%Q. lra.
Qed.

End AverageLatency.

(** X6. The average latency of an origin is the default 1000 when it has no
    sample newer than ten minutes, and otherwise lies between any integer
    bounds that enclose all its samples of the last ten minutes: older
    samples have no influence. *)
Theorem getAverageLatency_within_recent_samples
    (now : Z) (o : string) (lb : LoadBalancer.t) (lo hi : Z) :
  let history := match latencyHistory lb !! o with Some h => h | None => [] end in
  let recent := List.filter (fun m => timestamp m >? now - 10 * 60 * 1000) history in
  (recent = [] -> getAverageLatency now o lb = 1000)
  /\ (recent <> [] ->
      Forall (fun m => (inject_Z lo <= latency m)%Q /\ (latency m <= inject_Z hi)%Q) recent ->
      lo <= getAverageLatency now o lb <= hi).
Proof.
  intros history recent. unfold getAverageLatency. fold history. fold recent.
  split.
  - intros Hempty. rewrite Hempty.
    destruct (length history =? 0)%nat; reflexivity.
  - intros Hne Hall.
    assert ((length history =? 0)%nat = false) as ->.
    { apply Nat.eqb_neq. intros Hz. apply length_zero_iff_nil in Hz.
      apply Hne. unfold recent. rewrite Hz. reflexivity. }
    assert ((length recent =? 0)%nat = false) as ->.
    { apply Nat.eqb_neq. intros Hz. apply length_zero_iff_nil in Hz. exact (Hne Hz). }
    assert (0 < inject_Z (Z.of_nat (length recent)))%Q as Hpos.
    { change 0%Q with (inject_Z 0). rewrite <- Zlt_Qlt.
      destruct recent; [congruence | cbn; lia]. }
    destruct (latency_sum_bounds (inject_Z lo) (inject_Z hi) recent 0 Hall) as [Hlo Hhi].
    apply Math_round_between.
    + apply Qle_shift_div_l; [exact Hpos |]. lra.
    + apply Qle_shift_div_r; [exact Hpos |]. lra.
Qed.

Lemma getAverageLatency_within_recent_samples_witness :
  100 <= getAverageLatency 2000 originA balancerLatency <= 100
  /\ getAverageLatency 700000 originA balancerLatency = 1000.
Proof.
  destruct (getAverageLatency_within_recent_samples 2000 originA balancerLatency 100 100)
    as [_ Hin].
  destruct (getAverageLatency_within_recent_samples 700000 originA balancerLatency 0 0)
    as [Hout _].
  split.
  - apply Hin.
    + vm_compute. discriminate.
    + vm_compute. repeat constructor; discriminate.
  - apply Hout. vm_compute. reflexivity.
Defined.

(** X7. [setWeight] accepts exactly a configured origin with a positive
    weight: then the weight read back for that origin is the one given and
    the weights of the other origins are untouched; in every other case it
    throws and the instance is unchanged. *)
Theorem setWeight_validates_and_reads_back (o : string) (w : Q) (lb : LoadBalancer.t) :
  (In o (origins lb) -> (0 < w)%Q ->
     exists lb', setWeight o w lb = (Ok tt, lb')
                 /\ weights lb' !! o = Some w
                 /\ (weightOf lb' o == w)%Q
                 /\ (forall o', o' <> o -> weightOf lb' o' = weightOf lb o')
                 /\ connectionCounts lb' = connectionCounts lb)
  /\ (~ (In o (origins lb) /\ (0 < w)%Q) ->
     exists message, setWeight o w lb = (Throw (Error message), lb)).
Proof.
  unfold setWeight, bind, this, modify, throw. cbn.
  assert (includes_arr (origins lb) o = true <-> In o (origins lb)) as Hin.
  { unfold includes_arr. rewrite existsb_exists. split.
    - intros (x & Hx & E). apply String.eqb_eq in E. subst. exact Hx.
    - intros H. exists o. split; [exact H | apply String.eqb_refl]. }
  assert (Qgt_bool w 0 = true <-> (0 < w)%Q) as Hpos.
  { unfold Qgt_bool, Qlt_bool. rewrite negb_true_iff. split.
    - intros E. apply Qnot_le_lt. intros Hle. apply Qle_bool_iff in Hle. congruence.
    - intros Hlt. destruct (Qle_bool w 0) eqn:E; [| reflexivity].
      apply Qle_bool_iff in E. lra. }
  split.
  - intros Ho Hw. apply Hin in Ho. apply Hpos in Hw. rewrite Ho, Hw. cbn.
    eexists. split; [reflexivity |]. cbn. repeat split.
    + apply lookup_insert_eq.
    + unfold weightOf. cbn. rewrite lookup_insert_eq. unfold or_Q.
      destruct (Qeq_bool w 0) eqn:E; [| reflexivity].
      apply Qeq_bool_iff in E. apply Hpos in Hw. lra.
    + intros o' Hne. unfold weightOf. cbn. rewrite lookup_insert_ne by congruence.
      reflexivity.
  - intros Hnot.
    destruct (includes_arr (origins lb) o) eqn:Eo; cbn; [| eexists; reflexivity].
    destruct (Qgt_bool w 0) eqn:Ew; cbn; [| eexists; reflexivity].
    exfalso. apply Hnot. split; [apply Hin | apply Hpos]; reflexivity.
Qed.

Lemma setWeight_validates_and_reads_back_witness :
  (exists lb', setWeight originB 3 balancerAB = (Ok tt, lb')
               /\ weights lb' !! originB = Some 3%Q
               /\ (weightOf lb' originB == 3)%Q
               /\ (forall o', o' <> originB -> weightOf lb' o' = weightOf balancerAB o')
               /\ connectionCounts lb' = connectionCounts balancerAB)
  /\ (exists message, setWeight originB 0 balancerAB = (Throw (Error message), balancerAB)).
Proof.
  split.
  - apply (proj1 (setWeight_validates_and_reads_back originB 3 balancerAB)).
    + vm_compute. right. left. reflexivity.
    + reflexivity.
  - apply (proj2 (setWeight_validates_and_reads_back originB 0 balancerAB)).
    intros [_ Hpos]. vm_compute in Hpos. discriminate.
Defined.

Section Geographic.

Lemma includes_arr_In (l : list string) (o : string) :
  includes_arr l o = true <-> In o l.
Proof.
  unfold includes_arr. rewrite existsb_exists. split.
  - intros (x & Hx & E). apply String.eqb_eq in E. subst. exact Hx.
  - intros H. exists o. split; [exact H | apply String.eqb_refl].
Qed.

Lemma selectClosestOrigin_throws (l : list string) (context : Context) (lb : LoadBalancer.t) :
  selectClosestOrigin l context lb = (Throw (ReferenceError "context"), lb).
Proof. reflexivity. Qed.

(** The value [geographic] finds for the edge location of the context. *)
Lemma geographic_cases (l : list string) (context : Context) (lb : LoadBalancer.t) :
  (exists colo o,
      edgeColo context = Some colo
      /\ geographicMapping lb !! colo = Some (Some o)
      /\ o <> "" /\ In o l
      /\ geographic l context lb = (Ok (Some o), lb))
  \/ geographic l context lb = (Throw (ReferenceError "context"), lb).
Proof.
  unfold geographic, bind, this, ret. cbv beta iota zeta.
  destruct (edgeColo context) as [colo |]; [| right; reflexivity].
  destruct (geographicMapping lb !! colo) as [[o |] |] eqn:E; try (right; reflexivity).
  destruct (truthy_str (Some o)) eqn:Et; [| right; reflexivity].
  cbn [andb includes_opt].
  destruct (includes_arr l o) eqn:Ei; [| right; reflexivity].
  left. exists colo, o. repeat split.
  - exact E.
  - intros ->. cbn in Et. discriminate.
  - apply includes_arr_In, Ei.
Qed.

End Geographic.

(** X8. Once [addGeographicMapping(colo, o)] has accepted a configured
    origin [o], geographic selection for a request from [colo] returns [o]
    whenever [o] is among the origins it selects from, and changes nothing. *)
Theorem addGeographicMapping_then_geographic
    (colo o : string) (l : list string) (context : Context) (lb : LoadBalancer.t) :
  In o (origins lb) -> o <> "" -> In o l -> edgeColo context = Some colo ->
  exists lb',
    addGeographicMapping colo o lb = (Ok tt, lb')
    /\ geographic l context lb' = (Ok (Some o), lb').
Proof.
  intros Hconf Hne Hin Hcolo.
  unfold addGeographicMapping, bind, this, modify. cbv beta iota zeta.
  rewrite (proj2 (includes_arr_In (origins lb) o) Hconf).
  eexists. split; [reflexivity |].
  unfold geographic, bind, this, ret. cbv beta iota zeta.
  rewrite Hcolo. unfold set_geographicMapping. cbn [geographicMapping].
  rewrite lookup_insert_eq.
  assert (truthy_str (Some o) = true) as ->.
  { unfold truthy_str. destruct (String.eqb_spec o ""); [contradiction | reflexivity]. }
  cbn [andb includes_opt].
  rewrite (proj2 (includes_arr_In l o) Hin). reflexivity.
Qed.

Lemma addGeographicMapping_then_geographic_witness :
  exists lb',
    addGeographicMapping "LAX" originB balancerAB = (Ok tt, lb')
    /\ geographic [originA; originB] context0 lb' = (Ok (Some originB), lb').
Proof.
  apply (addGeographicMapping_then_geographic "LAX" originB [originA; originB] context0
           balancerAB).
  - vm_compute. right. left. reflexivity.
  - discriminate.
  - right. left. reflexivity.
  - reflexivity.
Defined.


Section SelectionReturnsHealthy.

Lemma lookup_In (l : list string) (i : nat) (o : string) : l !! i = Some o -> In o l.
Proof. intros H. apply list_elem_of_In. eapply list_elem_of_lookup_2, H. Qed.

Lemma roundRobin_member (l : list string) (lb lb' : LoadBalancer.t) (v : option string) :
  l <> [] -> roundRobin l lb = (Ok v, lb') -> exists o, v = Some o /\ In o l.
Proof.
  intros Hne Hrun. rewrite roundRobin_run in Hrun. injection Hrun as <- _.
  destruct (lookup_lt_is_Some_2 l (roundRobinIndex lb mod length l)%nat) as [o Ho].
  { apply Nat.mod_upper_bound. destruct l; [congruence | cbn; lia]. }
  exists o. split; [exact Ho | eapply lookup_In, Ho].
Qed.

Lemma leastConnections_member (l : list string) (lb lb' : LoadBalancer.t) (v : option string) :
  l <> [] -> leastConnections l lb = (Ok v, lb') -> exists o, v = Some o /\ In o l.
Proof.
  intros Hne Hrun.
  destruct (leastConnections_run l lb Hne) as (o & b & a & Hsel & Hsplit & _).
  rewrite Hsel in Hrun. injection Hrun as <- _.
  exists o. split; [reflexivity |]. rewrite Hsplit. apply in_or_app. right. left. reflexivity.
Qed.

Lemma weightedRoundRobin_member (rnd : Q) (l : list string) (lb lb' : LoadBalancer.t)
    (v : option string) :
  l <> [] -> weightedRoundRobin rnd l lb = (Ok v, lb') -> exists o, v = Some o /\ In o l.
Proof.
  intros Hne Hrun. unfold weightedRoundRobin, bind, this, ret in Hrun.
  cbv beta iota zeta in Hrun.
  destruct (weightedRoundRobin_loop lb (rnd * totalWeight lb l) 0 l) as [o |] eqn:E.
  - injection Hrun as <- _. exists o. split; [reflexivity |].
    destruct (weightedRoundRobin_loop_first lb _ l 0 o E) as (b & a & -> & _).
    apply in_or_app. right. left. reflexivity.
  - injection Hrun as <- _. destruct l as [| x l]; [congruence |].
    exists x. split; [reflexivity | left; reflexivity].
Qed.

Lemma healthScoreBased_member (hc : HealthChecker.t) (now : Z) (rnd : Q) (l : list string)
    (lb lb' : LoadBalancer.t) (v : option string) :
  l <> [] -> healthScoreBased hc now rnd l lb = (Ok v, lb') -> exists o, v = Some o /\ In o l.
Proof.
  intros Hne Hrun. unfold healthScoreBased, ret, throw in Hrun.
  destruct (List.filter _ (getOriginsByHealth hc now)) as [| best rest] eqn:Ef.
  - injection Hrun as <- _. destruct l as [| x l]; [congruence |].
    exists x. split; [reflexivity | left; reflexivity].
  - match type of Hrun with
    | context [match ?c with Some _ => _ | None => _ end] => destruct c as [item |] eqn:Ei
    end; [| discriminate].
    injection Hrun as <- _. exists (origin item). split; [reflexivity |].
    match type of Ei with
    | (if ?c then _ else _) = _ => destruct c; [discriminate |]
    end.
    apply list_elem_of_lookup_2, list_elem_of_In in Ei.
    apply filter_In in Ei as [Hin _].
    rewrite <- Ef in Hin. apply filter_In in Hin as [_ Hinc].
    apply includes_arr_In, Hinc.
Qed.

Lemma geographic_member (l : list string) (context : Context) (lb lb' : LoadBalancer.t)
    (v : option string) :
  geographic l context lb = (Ok v, lb') -> exists o, v = Some o /\ In o l.
Proof.
  intros Hrun.
  destruct (geographic_cases l context lb) as [(colo & o & _ & _ & _ & Hin & Hg) | Hg];
    rewrite Hg in Hrun; [| discriminate].
  injection Hrun as <- _. exists o. split; [reflexivity | exact Hin].
Qed.

Lemma getOptimalOrigin_member (hc : HealthChecker.t) (now : Z) (rnd : Q) (context : Context)
    (lb lb' : LoadBalancer.t) (v : option string) :
  getHealthyOrigins hc now lb <> [] ->
  getOptimalOrigin hc now rnd context lb = (Ok v, lb') ->
  exists o, v = Some o /\ In o (getHealthyOrigins hc now lb).
Proof.
  intros Hne Hrun. unfold getOptimalOrigin, bind, this in Hrun.
  cbv beta iota zeta in Hrun.
  set (healthy := getHealthyOrigins hc now lb) in *.
  destruct healthy as [| h1 hs] eqn:Eh; [congruence |]. rewrite <- Eh in *.
  assert ((length healthy =? 0)%nat = false) as E0 by (rewrite Eh; reflexivity).
  rewrite E0 in Hrun.
  destruct (length healthy =? 1)%nat.
  { unfold ret in Hrun. injection Hrun as <- _. rewrite Eh. cbn.
    exists h1. split; [reflexivity | left; reflexivity]. }
  repeat match type of Hrun with
         | (if ?c then _ else _) lb = _ => destruct c
         end.
  - eapply roundRobin_member; eassumption.
  - eapply leastConnections_member; eassumption.
  - eapply weightedRoundRobin_member; eassumption.
  - rewrite latencyBased_throws in Hrun. discriminate.
  - eapply geographic_member; eassumption.
  - eapply healthScoreBased_member; eassumption.
  - eapply roundRobin_member; eassumption.
Qed.

End SelectionReturnsHealthy.

(** X10. While some origin is healthy, whatever [getOptimalOrigin] returns
    (under any algorithm, any draw, any context) is a configured origin that
    the health checker reports healthy at that moment. *)
Theorem getOptimalOrigin_returns_a_healthy_origin
    (hc : HealthChecker.t) (now : Z) (rnd : Q) (context : Context)
    (lb lb' : LoadBalancer.t) (v : option string) :
  getHealthyOrigins hc now lb <> [] ->
  getOptimalOrigin hc now rnd context lb = (Ok v, lb') ->
  exists o, v = Some o /\ In o (origins lb) /\ isOriginHealthy hc now o = true.
Proof.
  intros Hne Hrun.
  destruct (getOptimalOrigin_member hc now rnd context lb lb' v Hne Hrun) as (o & -> & Hin).
  exists o. split; [reflexivity |].
  unfold getHealthyOrigins in Hin. apply filter_In in Hin. exact Hin.
Qed.

Lemma getOptimalOrigin_returns_a_healthy_origin_witness :
  exists o, Some originA = Some o /\ In o (origins balancerAB)
            /\ isOriginHealthy checkerBothHealthy 2000 o = true.
Proof.
  apply (getOptimalOrigin_returns_a_healthy_origin checkerBothHealthy 2000 0 context0
           balancerAB balancerAB (Some originA)).
  - vm_compute. discriminate.
  - vm_compute. reflexivity.
Defined.

(** X11. With exactly one healthy origin [getOptimalOrigin] returns it under
    every algorithm and leaves the instance untouched: the cursor does not
    advance and no connection is counted. *)
Theorem getOptimalOrigin_single_healthy
    (hc : HealthChecker.t) (now : Z) (rnd : Q) (context : Context)
    (lb : LoadBalancer.t) (o : string) :
  getHealthyOrigins hc now lb = [o] ->
  getOptimalOrigin hc now rnd context lb = (Ok (Some o), lb).
Proof.
  intros Hone. unfold getOptimalOrigin, bind, this, ret. cbv beta iota zeta.
  rewrite Hone. reflexivity.
Qed.

Lemma getOptimalOrigin_single_healthy_witness :
  getOptimalOrigin checkerBothHealthy 2000 0 context0
    (snd (setAlgorithm LEAST_CONNECTIONS (LoadBalancer.new (Some [originA; "https://c.example"]))))
  = (Ok (Some originA),
     snd (setAlgorithm LEAST_CONNECTIONS (LoadBalancer.new (Some [originA; "https://c.example"])))).
Proof.
  apply getOptimalOrigin_single_healthy. vm_compute. reflexivity.
Defined.

Section Failover.

Lemma filter_all_false {A} (f : A -> bool) (l : list A) :
  (forall x, In x l -> f x = false) -> List.filter f l = [].
Proof.
  induction l as [| x l IH]; intros H; [reflexivity |].
  cbn. rewrite (H x (or_introl eq_refl)). apply IH. intros y Hy. apply H. right. exact Hy.
Qed.

Lemma filter_not_failed_prefix (failed : string) (pre : list string) (l : list string) :
  Forall (fun x => x = failed) pre ->
  List.filter (fun origin => negb (String.eqb origin failed)) (pre ++ l)%list
  = List.filter (fun origin => negb (String.eqb origin failed)) l.
Proof.
  induction pre as [| x pre IH]; intros Hall; [reflexivity |].
  inversion Hall as [| ? ? -> Hrest]; subst. cbn. rewrite String.eqb_refl. cbn.
  apply IH, Hrest.
Qed.

End Failover.

(** X12. When no origin other than the failed one is healthy, failover
    returns the first configured origin that differs from the failed one
    (provided it is a non-empty string), healthy or not, and changes
    nothing. *)
Theorem getFailoverOrigin_last_resort
    (hc : HealthChecker.t) (now : Z) (rnd : Q) (failed : string) (context : Context)
    (lb : LoadBalancer.t) (pre rest : list string) (o : string) :
  (forall x, In x (origins lb) -> x <> failed -> isOriginHealthy hc now x = false) ->
  origins lb = (pre ++ o :: rest)%list ->
  Forall (fun x => x = failed) pre ->
  o <> failed -> o <> "" ->
  getFailoverOrigin hc now rnd failed context lb = (Ok (Some o), lb).
Proof.
  intros Hunhealthy Hsplit Hpre Hne Hnonempty.
  unfold getFailoverOrigin, bind, this, ret. cbv beta iota zeta.
  rewrite (filter_all_false (isOriginHealthy hc now)).
  - cbn [length Nat.eqb]. rewrite Hsplit, filter_not_failed_prefix by exact Hpre.
    cbn. destruct (String.eqb_spec o failed); [contradiction |]. cbn.
    unfold or_str, truthy_str. destruct (String.eqb_spec o ""); [contradiction |].
    reflexivity.
  - intros x Hx. apply filter_In in Hx as [Hin Hneq].
    apply Hunhealthy; [exact Hin |].
    intros ->. rewrite String.eqb_refl in Hneq. discriminate.
Qed.

Lemma getFailoverOrigin_last_resort_witness :
  getFailoverOrigin checkerEmpty 2000 0 originA context0 balancerAB
  = (Ok (Some originB), balancerAB).
Proof.
  apply (getFailoverOrigin_last_resort checkerEmpty 2000 0 originA context0 balancerAB
           [originA] [] originB).
  - intros x _ _. reflexivity.
  - vm_compute. reflexivity.
  - repeat constructor.
  - discriminate.
  - discriminate.
Defined.

(** X13. When the failed origin is itself no longer reported healthy and
    some other origin is, whatever failover returns is a healthy configured
    origin different from the failed one. *)
Theorem getFailoverOrigin_avoids_unhealthy_failed
    (hc : HealthChecker.t) (now : Z) (rnd : Q) (failed : string) (context : Context)
    (lb lb' : LoadBalancer.t) (v : option string) (alternative : string) :
  isOriginHealthy hc now failed = false ->
  In alternative (origins lb) -> alternative <> failed ->
  isOriginHealthy hc now alternative = true ->
  getFailoverOrigin hc now rnd failed context lb = (Ok v, lb') ->
  exists o, v = Some o /\ o <> failed /\ In o (origins lb)
            /\ isOriginHealthy hc now o = true.
Proof.
  intros Hfailed Hin Hne Hhealthy Hrun.
  unfold getFailoverOrigin, bind, this, ret in Hrun. cbv beta iota zeta in Hrun.
  assert (In alternative
            (List.filter (isOriginHealthy hc now)
               (List.filter (fun origin => negb (String.eqb origin failed)) (origins lb))))
    as Halt.
  { apply filter_In. split; [| exact Hhealthy].
    apply filter_In. split; [exact Hin |].
    destruct (String.eqb_spec alternative failed); [contradiction | reflexivity]. }
  destruct (List.filter (isOriginHealthy hc now) _) as [| a alts]; [destruct Halt |].
  cbn [length Nat.eqb] in Hrun.
  destruct (getOptimalOrigin hc now rnd (asFailover context) lb) as [[v' | e] lb1] eqn:Eopt;
    [| discriminate].
  injection Hrun as <- <-.
  destruct (getOptimalOrigin_member hc now rnd (asFailover context) lb lb1 v') as (o & -> & Ho).
  - intros Hnil.
    assert (In alternative (getHealthyOrigins hc now lb)) as Hc.
    { apply filter_In. split; assumption. }
    rewrite Hnil in Hc. destruct Hc.
  - exact Eopt.
  - apply filter_In in Ho as [Hoin Hoh].
    exists o. repeat split; try assumption.
    intros ->. congruence.
Qed.

Lemma getFailoverOrigin_avoids_unhealthy_failed_witness :
  exists o, Some originA = Some o /\ o <> "https://c.example"
            /\ In o (origins (LoadBalancer.new (Some ["https://c.example"; originA; originB])))
            /\ isOriginHealthy checkerBothHealthy 2000 o = true.
Proof.
  apply (getFailoverOrigin_avoids_unhealthy_failed checkerBothHealthy 2000 0
           "https://c.example" context0
           (LoadBalancer.new (Some ["https://c.example"; originA; originB]))
           (LoadBalancer.new (Some ["https://c.example"; originA; originB]))
           (Some originA) originB).
  - vm_compute. reflexivity.
  - vm_compute. right. right. left. reflexivity.
  - discriminate.
  - vm_compute. reflexivity.
  - vm_compute. reflexivity.
Defined.

Section Frame.

(** What a call leaves alone. *)
Lemma getOptimalOrigin_frame (hc : HealthChecker.t) (now : Z) (rnd : Q) (context : Context)
    (lb : LoadBalancer.t) :
  let lb' := snd (getOptimalOrigin hc now rnd context lb) in
  origins lb' = origins lb
  /\ currentAlgorithm lb' = currentAlgorithm lb
  /\ latencyHistory lb' = latencyHistory lb
  /\ weights lb' = weights lb
  /\ geographicMapping lb' = geographicMapping lb.
Proof.
  cbv zeta. unfold getOptimalOrigin, bind, this. cbv beta iota.
  repeat match goal with
         | |- context [(if ?c then _ else _) lb] => destruct c
         end;
    try (repeat split; reflexivity);
    try (rewrite weightedRoundRobin_state; repeat split; reflexivity);
    try (rewrite geographic_state; repeat split; reflexivity);
    try (rewrite healthScoreBased_state; repeat split; reflexivity).
  all: unfold leastConnections, bind, this, ret, modify; cbv beta iota;
    destruct (getHealthyOrigins hc now lb) as [| first rest];
    [repeat split; reflexivity |];
    destruct (leastConnections_loop _ _ _) as [sel mn]; repeat split; reflexivity.
Qed.

Lemma getFailoverOrigin_frame (hc : HealthChecker.t) (now : Z) (rnd : Q) (failed : string)
    (context : Context) (lb : LoadBalancer.t) :
  let lb' := snd (getFailoverOrigin hc now rnd failed context lb) in
  origins lb' = origins lb
  /\ currentAlgorithm lb' = currentAlgorithm lb
  /\ latencyHistory lb' = latencyHistory lb
  /\ weights lb' = weights lb
  /\ geographicMapping lb' = geographicMapping lb.
Proof.
  cbv zeta. unfold getFailoverOrigin, bind, this. cbv beta iota.
  match goal with
  | |- context [(if ?c then _ else _) lb] => destruct c
  end; [repeat split; reflexivity |].
  pose proof (getOptimalOrigin_frame hc now rnd (asFailover context) lb) as H.
  cbv zeta in H.
  destruct (getOptimalOrigin hc now rnd (asFailover context) lb) as [[v | e] lb1]; exact H.
Qed.

Lemma after_frame (c : call) (lb : LoadBalancer.t) :
  origins (after c lb) = origins lb
  /\ (In (currentAlgorithm lb) algorithms -> In (currentAlgorithm (after c lb)) algorithms)
  /\ ((forall o h, latencyHistory lb !! o = Some h -> (length h <= 100)%nat) ->
      forall o h, latencyHistory (after c lb) !! o = Some h -> (length h <= 100)%nat).
Proof.
  destruct c; cbn [after].
  - destruct (getOptimalOrigin_frame hc now rnd context lb) as (Ho & Ha & Hl & _).
    cbv zeta in *. rewrite Ho, Ha, Hl. auto.
  - destruct (getFailoverOrigin_frame hc now rnd failedOrigin context lb) as (Ho & Ha & Hl & _).
    cbv zeta in *. rewrite Ho, Ha, Hl. auto.
  - destruct (recordLatency_bounded now origin0 latency0 lb)
      as (lb' & h & Hrun & Ho & Ha & Hh & Hlen & Hother).
    rewrite Hrun. cbn [snd]. rewrite Ho, Ha. repeat split; [auto |].
    intros Hall o h' Hlook.
    destruct (decide (o = origin0)) as [-> | Hne].
    + rewrite Hh in Hlook. injection Hlook as <-. exact Hlen.
    + rewrite Hother in Hlook by exact Hne. eapply Hall, Hlook.
  - repeat split; auto.
  - unfold setAlgorithm. destruct (includes_arr algorithms algorithm) eqn:E.
    + unfold modify, set_currentAlgorithm.
      cbn [snd origins currentAlgorithm latencyHistory].
      split; [reflexivity |]. split; [| auto].
      intros _. apply includes_arr_In, E.
    + unfold throw. cbn [snd]. auto.
  - unfold setWeight, bind, this, modify, throw. cbv beta iota.
    destruct (includes_arr (origins lb) origin0 && Qgt_bool weight 0); repeat split; auto.
  - unfold addGeographicMapping, bind, this, modify, throw. cbv beta iota.
    destruct (includes_arr (origins lb) origin0); repeat split; auto.
Qed.

End Frame.

(** X14. Along any sequence of calls on a balancer the list of configured
    origins stays the one given to the constructor and the current algorithm
    is always one of the six recognised names, so the [default] branch of
    the dispatch is never taken. *)
Theorem origins_fixed_algorithm_recognised (l : list string) (calls : list call) :
  origins (run calls (LoadBalancer.new (Some l))) = l
  /\ In (currentAlgorithm (run calls (LoadBalancer.new (Some l)))) algorithms.
Proof.
  assert (forall lb,
             origins (run calls lb) = origins lb
             /\ (In (currentAlgorithm lb) algorithms ->
                 In (currentAlgorithm (run calls lb)) algorithms)) as Hrun.
  { unfold run. induction calls as [| c calls IH]; intros lb; cbn [fold_left]; [auto |].
    destruct (IH (after c lb)) as [Ho Ha]. destruct (after_frame c lb) as (Ho' & Ha' & _).
    split; [congruence | auto]. }
  destruct (Hrun (LoadBalancer.new (Some l))) as [Ho Ha].
  destruct (new_fields l "") as (_ & _ & Hor & Hal & _).
  split.
  - rewrite Ho. exact Hor.
  - apply Ha. rewrite Hal. unfold algorithms. cbn. tauto.
Qed.

(** X15. Along any sequence of calls no origin's latency history ever holds
    more than 100 samples. *)
Theorem latency_histories_bounded
    (origins0 : option (list string)) (calls : list call) (o : string) (h : list Sample) :
  latencyHistory (run calls (LoadBalancer.new origins0)) !! o = Some h ->
  (length h <= 100)%nat.
Proof.
  assert (forall lb,
             (forall o h, latencyHistory lb !! o = Some h -> (length h <= 100)%nat) ->
             forall o h, latencyHistory (run calls lb) !! o = Some h -> (length h <= 100)%nat)
    as Hrun.
  { unfold run. induction calls as [| c calls IH]; intros lb Hlb; cbn; [exact Hlb |].
    apply IH. apply (after_frame c lb), Hlb. }
  apply Hrun. intros o' h' Hlook.
  assert (latencyHistory (LoadBalancer.new origins0) = ∅) as E.
  { destruct origins0 as [l |]; [apply (new_fields l "") | apply (new_fields [] "")]. }
  rewrite E, lookup_empty in Hlook. discriminate.
Qed.

Lemma latency_histories_bounded_witness :
  exists h,
    latencyHistory (run [CallRecordLatency 1500 originA 100] (LoadBalancer.new (Some [originA])))
    !! originA = Some h
    /\ (length h <= 100)%nat.
Proof.
  eexists. split.
  - vm_compute. reflexivity.
  - eapply (latency_histories_bounded (Some [originA]) [CallRecordLatency 1500 originA 100]
              originA).
    vm_compute. reflexivity.
Defined.

(** * Further properties of the health checker *)

Section ScoreRange.

Lemma Math_max_0_bounds (x : Q) (hi : Q) :
  (0 <= hi)%Q -> (x <= hi)%Q -> (0 <= Math_max 0 x)%Q /\ (Math_max 0 x <= hi)%Q.
Proof.
  intros Hhi Hx. unfold Math_max. destruct (Qle_bool 0 x) eqn:E.
  - apply Qle_bool_iff in E. split; assumption.
  - split; [apply Qle_refl | exact Hhi].
Qed.

Lemma calculateHealthScore_range (hc : HealthChecker.t) (now : Z) (m : Metrics) :
  (0 <= successRate m)%Q -> (successRate m <= 1)%Q ->
  (0 <= averageResponseTime m)%Q ->
  (0 < thResponseTime (healthThresholds hc))%Q ->
  0 <= calculateHealthScore hc now m <= 100.
Proof.
  intros Hs0 Hs1 Havg Hthr. unfold calculateHealthScore.
  destruct (totalChecks m =? 0); [lia |].
  set (ratio := (or_Q (Some (averageResponseTime m)) 0 / thResponseTime (healthThresholds hc))%Q).
  assert (0 <= ratio)%Q as Hratio.
  { unfold ratio, Qdiv. apply Qmult_le_0_compat.
    - rewrite or_Q_zero. exact Havg.
    - apply Qinv_le_0_compat, Qlt_le_weak, Hthr. }
  destruct (Math_max_0_bounds (100 - ratio * 100) 100) as [Hr0 Hr1]; [lra | lra |].
  set (n := Z.of_nat (length (List.filter _ (errors m)))).
  assert (0 <= inject_Z (n * 20))%Q as Hn.
  { change 0%Q with (inject_Z 0). rewrite <- Zle_Qle. unfold n. lia. }
  destruct (Math_max_0_bounds (100 - inject_Z (n * 20)) 100) as [Hc0 Hc1]; [lra | lra |].
  apply Math_round_between; change (inject_Z 0) with 0%Q; change (inject_Z 100) with 100%Q; lra.
Qed.

End ScoreRange.

(** X16. For a success rate between 0 and 1, a non-negative mean response
    time and a positive response-time threshold the health score is an
    integer between 0 and 100. *)
Theorem calculateHealthScore_between_0_and_100
    (hc : HealthChecker.t) (now : Z) (m : Metrics) :
  (0 <= successRate m)%Q -> (successRate m <= 1)%Q ->
  (0 <= averageResponseTime m)%Q ->
  (0 < thResponseTime (healthThresholds hc))%Q ->
  0 <= calculateHealthScore hc now m <= 100.
Proof. exact (calculateHealthScore_range hc now m). Qed.

Lemma calculateHealthScore_between_0_and_100_witness :
  0 <= calculateHealthScore checkerEmpty 41000 metricsOneFailure <= 100.
Proof.
  apply (calculateHealthScore_between_0_and_100 checkerEmpty 41000 metricsOneFailure).
  - vm_compute. discriminate.
  - vm_compute. discriminate.
  - vm_compute. discriminate.
  - vm_compute. reflexivity.
Defined.

Section ProbeRounds.

Lemma metrics_get_set (ms : list (string * Metrics)) (o o' : string) (m : Metrics) :
  metrics_get (metrics_set ms o m) o'
  = if String.eqb o o' then Some m else metrics_get ms o'.
Proof.
  induction ms as [| [k v] ms IH]; cbn.
  - destruct (String.eqb_spec o o'); [subst; reflexivity | reflexivity].
  - destruct (String.eqb_spec k o) as [-> | Hko]; cbn.
    + destruct (String.eqb_spec o o'); reflexivity.
    + rewrite IH. destruct (String.eqb_spec k o') as [-> | Hko'].
      * destruct (String.eqb_spec o o'); [congruence | reflexivity].
      * reflexivity.
Qed.

Lemma slice_last_length {A} (n : nat) (l : list A) : (length (slice_last n l) <= n)%nat.
Proof.
  unfold slice_last. rewrite length_skipn. lia.
Qed.

Lemma quotient_between_0_and_1 (a b : Z) :
  1 <= b -> 0 <= a <= b -> (0 <= inject_Z a / inject_Z b)%Q /\ (inject_Z a / inject_Z b <= 1)%Q.
Proof.
  intros Hb Ha.
  assert (0 < inject_Z b)%Q as Hpos
    by (change 0%Q with (inject_Z 0); rewrite <- Zlt_Qlt; lia).
  split.
  - apply Qle_shift_div_l; [exact Hpos |]. rewrite Qmult_0_l.
    change 0%Q with (inject_Z 0). rewrite <- Zle_Qle. lia.
  - apply Qle_shift_div_r; [exact Hpos |]. rewrite Qmult_1_l. rewrite <- Zle_Qle. lia.
Qed.

Lemma quotient_between_0_and_1_nonneg (a b : Z) :
  1 <= b -> 0 <= a -> (0 <= inject_Z a / inject_Z b)%Q.
Proof.
  intros Hb Ha.
  assert (0 < inject_Z b)%Q as Hpos
    by (change 0%Q with (inject_Z 0); rewrite <- Zlt_Qlt; lia).
  apply Qle_shift_div_l; [exact Hpos |]. rewrite Qmult_0_l.
  change 0%Q with (inject_Z 0). rewrite <- Zle_Qle. lia.
Qed.

Lemma updateOriginMetrics_holds (now : Z) (o : string) (h : Health) (hc : HealthChecker.t) :
  (forall rt, responseTime h = Some rt -> 0 <= rt) ->
  (forall o' m, metrics_get (metrics hc) o' = Some m -> MetricsInvariant.holds m) ->
  forall o' m, metrics_get (metrics (updateOriginMetrics now o h hc)) o' = Some m ->
               MetricsInvariant.holds m.
Proof.
  intros Hrt Hall o' m. unfold updateOriginMetrics. cbn [metrics].
  rewrite metrics_get_set.
  destruct (String.eqb o o'); [| apply Hall].
  intros Hm. injection Hm as <-.
  set (old := match metrics_get (metrics hc) o with Some m => m | None => freshMetrics end).
  assert (0 <= totalChecks old /\ 0 <= successfulChecks old <= totalChecks old
          /\ 0 <= totalResponseTime old /\ (length (errors old) <= 10)%nat) as (Ht & Hs & Hr & He).
  { unfold old. destruct (metrics_get (metrics hc) o) as [m0 |] eqn:E.
    - destruct (Hall o m0 E) as (H1 & H2 & H3 & H4 & _). repeat split; lia.
    - cbn. repeat split; lia. }
  unfold MetricsInvariant.holds.
  cbn [totalChecks successfulChecks totalResponseTime errors successRate averageResponseTime].
  split; [lia |]. split; [destruct (healthy h); lia |].
  split.
  { destruct (responseTime h) as [rt |] eqn:E; [| exact Hr].
    specialize (Hrt rt eq_refl). destruct (rt =? 0); lia. }
  split.
  { destruct (healthy h); [exact He |].
    match goal with
    | |- context [(10 <? ?n)%nat] => destruct (Nat.ltb_spec 10 n)
    end; [apply slice_last_length | lia]. }
  split; reflexivity.
Qed.

Lemma checkOriginHealth_holds (now elapsed : Z) (probes : Probes) (o : string)
    (hc : HealthChecker.t) :
  0 <= elapsed ->
  (forall o' m, metrics_get (metrics hc) o' = Some m -> MetricsInvariant.holds m) ->
  forall o' m,
    metrics_get (metrics (snd (checkOriginHealth now elapsed probes o hc))) o' = Some m ->
    MetricsInvariant.holds m.
Proof.
  intros He Hall. unfold checkOriginHealth.
  match goal with
  | |- context [match ?c with Some _ => _ | None => _ end] =>
      destruct c as [cached |]
  end; [exact Hall |].
  cbn [snd]. apply updateOriginMetrics_holds.
  - cbn. intros rt E. injection E as <-. exact He.
  - exact Hall.
Qed.

Lemma checkOriginHealth_config (now elapsed : Z) (probes : Probes) (o : string)
    (hc : HealthChecker.t) :
  checkInterval (snd (checkOriginHealth now elapsed probes o hc)) = checkInterval hc
  /\ healthThresholds (snd (checkOriginHealth now elapsed probes o hc)) = healthThresholds hc.
Proof.
  unfold checkOriginHealth.
  match goal with
  | |- context [match ?c with Some _ => _ | None => _ end] =>
      destruct c as [cached |]
  end; split; reflexivity.
Qed.

Lemma probeAll_holds (rounds : list Round) (hc : HealthChecker.t) :
  Forall (fun r => 0 <= roundElapsed r) rounds ->
  (forall o m, metrics_get (metrics hc) o = Some m -> MetricsInvariant.holds m) ->
  (healthThresholds (probeAll rounds hc) = healthThresholds hc
   /\ checkInterval (probeAll rounds hc) = checkInterval hc)
  /\ forall o m, metrics_get (metrics (probeAll rounds hc)) o = Some m ->
                 MetricsInvariant.holds m.
Proof.
  unfold probeAll. revert hc.
  induction rounds as [| r rounds IH]; intros hc Hel Hall; cbn [fold_left]; [auto |].
  inversion Hel as [| ? ? Hr Hrest]; subst.
  destruct (checkOriginHealth_config (roundStart r) (roundElapsed r) (roundProbes r)
              (roundOrigin r) hc) as [Hi Ht].
  destruct (IH (snd (checkOriginHealth (roundStart r) (roundElapsed r) (roundProbes r)
                       (roundOrigin r) hc)) Hrest) as [[Ht' Hi'] Hm].
  - apply checkOriginHealth_holds; assumption.
  - split; [split; congruence | exact Hm].
Qed.

End ProbeRounds.

(** X17. Whatever probe rounds the checker has gone through since its
    construction (each taking a non-negative time), the metrics of every
    origin count at least one check, have between none and all of the checks
    successful, log at most ten errors, carry the success rate that is the
    quotient of the two counters, and yield a health score between 0 and
    100. *)
Theorem probed_metrics_are_consistent
    (interval failoverTimeout : option Z) (rounds : list Round) (now : Z)
    (o : string) (m : Metrics) :
  Forall (fun r => 0 <= roundElapsed r) rounds ->
  metrics_get (metrics (probeAll rounds (HealthChecker.new interval failoverTimeout))) o
  = Some m ->
  1 <= totalChecks m
  /\ 0 <= successfulChecks m <= totalChecks m
  /\ (length (errors m) <= 10)%nat
  /\ (successRate m == inject_Z (successfulChecks m) / inject_Z (totalChecks m))%Q
  /\ 0 <= calculateHealthScore
            (probeAll rounds (HealthChecker.new interval failoverTimeout)) now m <= 100.
Proof.
  intros Hel Hm.
  destruct (probeAll_holds rounds (HealthChecker.new interval failoverTimeout) Hel)
    as [[Hthr _] Hall].
  { intros o' m' E. cbn in E. discriminate. }
  destruct (Hall o m Hm) as (Ht & Hs & Hr & He & Hrate & Havg).
  repeat split; try assumption; try lia.
  all: apply calculateHealthScore_range.
  all: try (rewrite Hthr; reflexivity).
  all: try (rewrite Hrate; apply quotient_between_0_and_1; lia).
  all: rewrite Havg; apply quotient_between_0_and_1_nonneg; lia.
Qed.

Lemma probed_metrics_are_consistent_witness :
  1 <= totalChecks metricsOneFailure
  /\ 0 <= successfulChecks metricsOneFailure <= totalChecks metricsOneFailure
  /\ (length (errors metricsOneFailure) <= 10)%nat
  /\ (successRate metricsOneFailure
      == inject_Z (successfulChecks metricsOneFailure)
         / inject_Z (totalChecks metricsOneFailure))%Q
  /\ 0 <= calculateHealthScore
            (probeAll
               [ {| roundOrigin := originA; roundStart := 1000; roundElapsed := 300;
                    roundProbes := twoFail |};
                 {| roundOrigin := originA; roundStart := 40000; roundElapsed := 100;
                    roundProbes := allPass |} ]
               (HealthChecker.new None None)) 41000 metricsOneFailure <= 100.
Proof.
  apply (probed_metrics_are_consistent None None
           [ {| roundOrigin := originA; roundStart := 1000; roundElapsed := 300;
                roundProbes := twoFail |};
             {| roundOrigin := originA; roundStart := 40000; roundElapsed := 100;
                roundProbes := allPass |} ]
           41000 originA metricsOneFailure).
  - repeat constructor; cbn; lia.
  - vm_compute. reflexivity.
Defined.

Section ProbeCache.

Lemma Qlt_bool_lt (a b : Q) : Qlt_bool a b = true <-> (a < b)%Q.
Proof.
  unfold Qlt_bool. rewrite negb_true_iff. split.
  - intros E. apply Qnot_le_lt. intros Hle. apply Qle_bool_iff in Hle. congruence.
  - intros Hlt. destruct (Qle_bool b a) eqn:E; [| reflexivity].
    apply Qle_bool_iff in E. lra.
Qed.

Lemma within_half_interval (age interval : Z) :
  Qlt_bool (inject_Z age) (inject_Z interval / 2)%Q = true <-> 2 * age < interval.
Proof.
  rewrite Qlt_bool_lt, Zlt_Qlt, inject_Z_mult. change (inject_Z 2) with 2%Q.
  unfold Qdiv. change (/ 2)%Q with (1 # 2)%Q.
  split; intros H; lra.
Qed.

Lemma cacheKey_injective (o o' : string) : cacheKey o = cacheKey o' -> o = o'.
Proof. unfold cacheKey. cbn. intros H. injection H as H. exact H. Qed.

(** The four probe outcomes as [checkOriginHealth] records them. *)
Lemma checkOriginHealth_probes (now elapsed : Z) (probes : Probes) (o : string)
    (hc : HealthChecker.t) :
  (forall c, healthCache hc !! cacheKey o = Some c ->
             checkInterval hc <= 2 * (now - cachedAt c)) ->
  exists h,
    checkOriginHealth now elapsed probes o hc
    = (h, updateOriginMetrics (now + elapsed) o h
            {| checkInterval := checkInterval hc; timeout := timeout hc;
               healthThresholds := healthThresholds hc;
               healthCache := <[cacheKey o := {| health := h; cachedAt := now + elapsed |}]>
                                (healthCache hc);
               metrics := metrics hc |})
    /\ healthy h
       = (3 <=? length (List.filter (fun b : bool => b)
                          [settled (pConnectivity probes); settled (pResponseTime probes);
                           settled (pStatusCode probes); settled (pSSL probes)]))%nat
    /\ responseTime h = Some elapsed
    /\ HealthChecker.timestamp h = now.
Proof.
  intros Hold. unfold checkOriginHealth.
  destruct (healthCache hc !! cacheKey o) as [c |] eqn:E.
  - destruct (Qlt_bool _ _) eqn:Ef.
    + apply within_half_interval in Ef. specialize (Hold c eq_refl). lia.
    + eexists. split; [reflexivity |]. repeat split; reflexivity.
  - eexists. split; [reflexivity |]. repeat split; reflexivity.
Qed.

End ProbeCache.

(** X18. After a probe round that really probed an origin (its snapshot was
    missing or at least half an interval old), a further
    [checkOriginHealth] for that origin started less than half an interval
    after the round ended does not probe again: it returns the snapshot of
    that round and leaves the checker as it is, whatever the new probes
    would have said. *)
Theorem checkOriginHealth_serves_recent_snapshot
    (now elapsed : Z) (probes : Probes) (o : string) (hc : HealthChecker.t)
    (now' elapsed' : Z) (probes' : Probes) :
  (forall c, healthCache hc !! cacheKey o = Some c ->
             checkInterval hc <= 2 * (now - cachedAt c)) ->
  2 * (now' - (now + elapsed)) < checkInterval hc ->
  checkOriginHealth now' elapsed' probes' o (snd (checkOriginHealth now elapsed probes o hc))
  = checkOriginHealth now elapsed probes o hc.
Proof.
  intros Hold Hsoon.
  destruct (checkOriginHealth_probes now elapsed probes o hc Hold) as (h & -> & _).
  cbn [snd]. unfold checkOriginHealth at 1, updateOriginMetrics.
  cbn [healthCache checkInterval]. rewrite lookup_insert_eq. cbn [cachedAt health].
  rewrite (proj2 (within_half_interval _ _) Hsoon). reflexivity.
Qed.

Lemma checkOriginHealth_serves_recent_snapshot_witness :
  checkOriginHealth 11000 50 twoFail originA
    (snd (checkOriginHealth 1000 20 allPass originA checkerEmpty))
  = checkOriginHealth 1000 20 allPass originA checkerEmpty.
Proof.
  apply checkOriginHealth_serves_recent_snapshot.
  - intros c Hc. vm_compute in Hc. discriminate.
  - vm_compute. reflexivity.
Defined.

(** X19. After a probe round that really probed an origin, [isOriginHealthy]
    answers for that origin, at any moment up to two intervals after the
    round ended, whether at least three of the four probes fulfilled with
    [true]; the answers for the other origins are what they were. *)
Theorem checkOriginHealth_then_isOriginHealthy
    (now elapsed : Z) (probes : Probes) (o : string) (hc : HealthChecker.t) (later : Z) :
  (forall c, healthCache hc !! cacheKey o = Some c ->
             checkInterval hc <= 2 * (now - cachedAt c)) ->
  later - (now + elapsed) <= checkInterval hc * 2 ->
  let hc' := snd (checkOriginHealth now elapsed probes o hc) in
  isOriginHealthy hc' later o
  = (3 <=? length (List.filter (fun b : bool => b)
                     [settled (pConnectivity probes); settled (pResponseTime probes);
                      settled (pStatusCode probes); settled (pSSL probes)]))%nat
  /\ forall o', o' <> o -> isOriginHealthy hc' later o' = isOriginHealthy hc later o'.
Proof.
  intros Hold Hfresh.
  destruct (checkOriginHealth_probes now elapsed probes o hc Hold) as (h & -> & Hh & _).
  cbn [snd]. cbv zeta. unfold isOriginHealthy, updateOriginMetrics.
  cbn [healthCache checkInterval]. split.
  - rewrite lookup_insert_eq. cbn [cachedAt health].
    destruct (Z.gtb_spec (later - (now + elapsed)) (checkInterval hc * 2)); [lia |].
    exact Hh.
  - intros o' Hne. rewrite lookup_insert_ne; [reflexivity |].
    intros Hk. apply cacheKey_injective in Hk. congruence.
Qed.

Lemma checkOriginHealth_then_isOriginHealthy_witness :
  isOriginHealthy (snd (checkOriginHealth 1000 300 twoFail originA checkerEmpty)) 50000 originA
  = false
  /\ isOriginHealthy (snd (checkOriginHealth 1000 300 allPass originA checkerEmpty)) 50000
       originA = true.
Proof.
  destruct (checkOriginHealth_then_isOriginHealthy 1000 300 twoFail originA checkerEmpty 50000)
    as [Hfail _].
  { intros c Hc. vm_compute in Hc. discriminate. }
  { vm_compute. discriminate. }
  destruct (checkOriginHealth_then_isOriginHealthy 1000 300 allPass originA checkerEmpty 50000)
    as [Hpass _].
  { intros c Hc. vm_compute in Hc. discriminate. }
  { vm_compute. discriminate. }
  split; [rewrite Hfail | rewrite Hpass]; reflexivity.
Defined.

Section Ranking.

Lemma insert_desc_perm (x : Ranked) (l : list Ranked) : Permutation (insert_desc x l) (x :: l).
Proof.
  induction l as [| y l IH]; cbn; [reflexivity |].
  destruct (healthScore x <=? healthScore y); [| reflexivity].
  rewrite IH. apply perm_swap.
Qed.

Lemma insert_desc_sorted (x : Ranked) (l : list Ranked) :
  Sorted (fun a b : Ranked => healthScore b <= healthScore a) l -> Sorted (fun a b : Ranked => healthScore b <= healthScore a) (insert_desc x l).
Proof.
  induction l as [| y l IH]; intros Hs; cbn.
  - repeat constructor.
  - destruct (Z.leb_spec (healthScore x) (healthScore y)) as [Hle | Hgt].
    + inversion Hs as [| ? ? Hs' Hhd]; subst. constructor; [apply IH, Hs' |].
      destruct l as [| z l]; cbn.
      * constructor. exact Hle.
      * destruct (healthScore x <=? healthScore z); constructor.
        -- inversion Hhd; assumption.
        -- exact Hle.
    + constructor; [exact Hs |]. constructor. lia.
Qed.

Lemma sort_desc_spec (l : list Ranked) :
  Sorted (fun a b : Ranked => healthScore b <= healthScore a) (sort_desc l) /\ Permutation (sort_desc l) l.
Proof.
  unfold sort_desc.
  assert (forall acc, Sorted (fun a b : Ranked => healthScore b <= healthScore a) acc ->
                      Sorted (fun a b : Ranked => healthScore b <= healthScore a) (fold_left (fun acc x => insert_desc x acc) l acc)
                      /\ Permutation (fold_left (fun acc x => insert_desc x acc) l acc)
                           (acc ++ l)) as H.
  { induction l as [| x l IH]; intros acc Hacc; cbn [fold_left].
    - rewrite app_nil_r. split; [exact Hacc | reflexivity].
    - destruct (IH (insert_desc x acc) (insert_desc_sorted x acc Hacc)) as [Hs Hp].
      split; [exact Hs |]. rewrite Hp, insert_desc_perm.
      change (x :: acc ++ l)%list with ((x :: acc) ++ l)%list.
      rewrite (Permutation_middle acc l x). reflexivity. }
  destruct (H [] (Sorted_nil _)) as [Hs Hp]. split; [exact Hs | exact Hp].
Qed.

End Ranking.

(** X20. [getOriginsByHealth] lists every origin that has metrics exactly
    once per metrics entry, each with the score and the status computed from
    its metrics, in an order in which no item has a lower score than any
    item after it. *)
Theorem getOriginsByHealth_sorted_by_score (hc : HealthChecker.t) (now : Z) :
  StronglySorted (fun a b => healthScore b <= healthScore a) (getOriginsByHealth hc now)
  /\ Permutation (getOriginsByHealth hc now)
       (map (fun '(o, m) =>
               {| origin := o;
                  healthScore := calculateHealthScore hc now m;
                  status := getOriginStatus hc now m |})
            (metrics hc)).
Proof.
  unfold getOriginsByHealth.
  destruct (sort_desc_spec
              (map (fun '(o, m) =>
                      {| origin := o;
                         healthScore := calculateHealthScore hc now m;
                         status := getOriginStatus hc now m |})
                   (metrics hc))) as [Hs Hp].
  split; [| exact Hp].
  apply Sorted_StronglySorted; [| exact Hs].
  intros a b c Hab Hbc. lia.
Qed.

Section Healthiest.

Lemma getHealthiestOrigin_scan (hc : HealthChecker.t) (now : Z)
    (rest seen : list (string * Metrics)) (best : option string) (bestScore : Z) :
  (forall o m, In (o, m) (seen ++ rest)%list -> 0 <= calculateHealthScore hc now m) ->
  match best with
  | None => seen = [] /\ bestScore = -1
  | Some o => exists m, In (o, m) seen /\ bestScore = calculateHealthScore hc now m
                        /\ forall o' m', In (o', m') seen ->
                                         calculateHealthScore hc now m' <= bestScore
  end ->
  (seen ++ rest)%list <> [] ->
  exists o m,
    fst (fold_left
           (fun '(bestOrigin, bestScore) '(o, m) =>
              let score := calculateHealthScore hc now m in
              if score >? bestScore then (Some o, score) else (bestOrigin, bestScore))
           rest (best, bestScore)) = Some o
    /\ In (o, m) (seen ++ rest)%list
    /\ forall o' m', In (o', m') (seen ++ rest)%list ->
                     calculateHealthScore hc now m' <= calculateHealthScore hc now m.
Proof.
  revert seen best bestScore.
  induction rest as [| [x mx] rest IH]; intros seen best bestScore Hpos Hinv Hne.
  - rewrite app_nil_r in *. cbn.
    destruct best as [o |].
    + destruct Hinv as (m & Hin & -> & Hmax). exists o, m. auto.
    + destruct Hinv as [-> _]. congruence.
  - cbn [fold_left].
    replace (seen ++ (x, mx) :: rest)%list with ((seen ++ [(x, mx)]) ++ rest)%list in *
      by (rewrite <- app_assoc; reflexivity).
    assert (0 <= calculateHealthScore hc now mx) as Hx.
    { apply (Hpos x). apply in_or_app. left. apply in_or_app. right. left. reflexivity. }
    destruct (Z.gtb_spec (calculateHealthScore hc now mx) bestScore) as [Hgt | Hle].
    + apply IH; [exact Hpos | | destruct seen; discriminate].
      exists mx. split; [apply in_or_app; right; left; reflexivity |].
      split; [reflexivity |].
      intros o' m' Hin. apply in_app_or in Hin as [Hin | [E | []]].
      * destruct best as [o |].
        -- destruct Hinv as (m & _ & _ & Hmax). specialize (Hmax o' m' Hin). lia.
        -- destruct Hinv as [-> _]. destruct Hin.
      * injection E as <- <-. lia.
    + apply IH; [exact Hpos | | destruct seen; discriminate].
      destruct best as [o |].
      * destruct Hinv as (m & Hin & -> & Hmax). exists m.
        split; [apply in_or_app; left; exact Hin |]. split; [reflexivity |].
        intros o' m' Hin'. apply in_app_or in Hin' as [Hin' | [E | []]].
        -- apply Hmax with o'. exact Hin'.
        -- injection E as <- <-. exact Hle.
      * destruct Hinv as [_ ->]. lia.
Qed.

End Healthiest.

(** X21. [getHealthiestOrigin] answers [null] when no origin has metrics;
    otherwise, scores being non-negative, it answers an origin whose score
    no other origin's score exceeds. *)
Theorem getHealthiestOrigin_has_highest_score (hc : HealthChecker.t) (now : Z) :
  (metrics hc = [] -> getHealthiestOrigin hc now = None)
  /\ (metrics hc <> [] ->
      (forall o m, In (o, m) (metrics hc) -> 0 <= calculateHealthScore hc now m) ->
      exists o m,
        getHealthiestOrigin hc now = Some o
        /\ In (o, m) (metrics hc)
        /\ forall o' m', In (o', m') (metrics hc) ->
                         calculateHealthScore hc now m' <= calculateHealthScore hc now m).
Proof.
  unfold getHealthiestOrigin. split.
  - intros ->. reflexivity.
  - intros Hne Hpos.
    apply (getHealthiestOrigin_scan hc now (metrics hc) [] None (-1)); auto.
Qed.

Lemma getHealthiestOrigin_has_highest_score_witness :
  getHealthiestOrigin checkerEmpty 2000 = None
  /\ exists o m,
       getHealthiestOrigin checkerBothHealthy 2000 = Some o
       /\ In (o, m) (metrics checkerBothHealthy)
       /\ forall o' m', In (o', m') (metrics checkerBothHealthy) ->
                        calculateHealthScore checkerBothHealthy 2000 m'
                        <= calculateHealthScore checkerBothHealthy 2000 m.
Proof.
  split.
  - apply (proj1 (getHealthiestOrigin_has_highest_score checkerEmpty 2000)). reflexivity.
  - apply (proj2 (getHealthiestOrigin_has_highest_score checkerBothHealthy 2000)).
    + vm_compute. discriminate.
    + intros o m Hin.
      assert (metrics checkerBothHealthy
              = [(originA, snd (List.nth 0 (metrics checkerBothHealthy) (originA, freshMetrics)));
                 (originB, snd (List.nth 1 (metrics checkerBothHealthy) (originA, freshMetrics)))])
        as E by (vm_compute; reflexivity).
      rewrite E in Hin.
      destruct Hin as [H | [H | []]]; injection H as _ <-; vm_compute; discriminate.
Defined.

Section Cleanup.

Lemma cleanup_lookup (now : Z) (hc : HealthChecker.t) (key : string) :
  healthCache (cleanup now hc) !! key
  = match healthCache hc !! key with
    | Some c => if decide (now - cachedAt c > checkInterval hc * 5) then None else Some c
    | None => None
    end.
Proof.
  unfold cleanup. cbn [healthCache].
  destruct (healthCache hc !! key) as [c |] eqn:E.
  - destruct (decide (now - cachedAt c > checkInterval hc * 5)) as [Hold | Hkeep].
    + apply map_lookup_filter_None. right. intros c' Hc'. cbn. 
      rewrite E in Hc'. injection Hc' as <-. intros Hn. apply Hn. exact Hold.
    + apply map_lookup_filter_Some. split; [exact E | exact Hkeep].
  - apply map_lookup_filter_None. left. exact E.
Qed.

Lemma recent_errors_after_cleanup (now interval : Z) (errs : list ErrorEntry) :
  interval * 5 <= 24 * 60 * 60 * 1000 ->
  List.filter (fun e => now - errTimestamp e <? interval * 5)
    (List.filter (fun e => now - errTimestamp e <? 24 * 60 * 60 * 1000) errs)
  = List.filter (fun e => now - errTimestamp e <? interval * 5) errs.
Proof.
  intros Hwin. induction errs as [| e errs IH]; [reflexivity |].
  cbn [List.filter].
  destruct (Z.ltb_spec (now - errTimestamp e) (24 * 60 * 60 * 1000)) as [Hday | Hday].
  - cbn [List.filter]. rewrite IH. reflexivity.
  - destruct (Z.ltb_spec (now - errTimestamp e) (interval * 5)); [lia | exact IH].
Qed.

End Cleanup.

(** X22. With a non-negative probe interval, [cleanup] never removes a
    snapshot that [isOriginHealthy] would still trust: the answer of
    [isOriginHealthy] is the same after the cleanup as before it, for every
    origin; and every snapshot that remains is at most five intervals old. *)
Theorem cleanup_keeps_health_answers (now : Z) (hc : HealthChecker.t) (o : string) :
  0 <= checkInterval hc ->
  isOriginHealthy (cleanup now hc) now o = isOriginHealthy hc now o
  /\ forall key c, healthCache (cleanup now hc) !! key = Some c ->
                   now - cachedAt c <= checkInterval hc * 5.
Proof.
  intros Hint. split.
  - unfold isOriginHealthy. rewrite cleanup_lookup. 
    change (checkInterval (cleanup now hc)) with (checkInterval hc).
    destruct (healthCache hc !! cacheKey o) as [c |]; [| reflexivity].
    destruct (decide (now - cachedAt c > checkInterval hc * 5)) as [Hold | Hkeep];
      [| reflexivity].
    destruct (Z.gtb_spec (now - cachedAt c) (checkInterval hc * 2)); [reflexivity | lia].
  - intros key c. rewrite cleanup_lookup.
    destruct (healthCache hc !! key) as [c' |]; [| discriminate].
    destruct (decide (now - cachedAt c' > checkInterval hc * 5)); [discriminate |].
    intros E. injection E as <-. lia.
Qed.

Lemma cleanup_keeps_health_answers_witness :
  isOriginHealthy (cleanup 500000 checkerBothHealthy) 500000 originA
  = isOriginHealthy checkerBothHealthy 500000 originA
  /\ healthCache (cleanup 500000 checkerBothHealthy) !! cacheKey originA = None.
Proof.
  split.
  - apply (cleanup_keeps_health_answers 500000 checkerBothHealthy originA).
    vm_compute. discriminate.
  - vm_compute. reflexivity.
Defined.

(** X23. When five probe intervals fit within a day, [cleanup] does not
    change the ranking: [getOriginsByHealth] returns after the cleanup what
    it returned before it, scores and statuses included. *)
Theorem cleanup_keeps_ranking (now : Z) (hc : HealthChecker.t) :
  checkInterval hc * 5 <= 24 * 60 * 60 * 1000 ->
  getOriginsByHealth (cleanup now hc) now = getOriginsByHealth hc now.
Proof.
  intros Hwin. unfold getOriginsByHealth. f_equal.
  unfold cleanup. cbn [metrics]. rewrite map_map.
  apply map_ext. intros [o m].
  assert (calculateHealthScore (cleanup now hc) now
            (set_errors (List.filter (fun e => now - errTimestamp e <? 24 * 60 * 60 * 1000)
                           (errors m)) m)
          = calculateHealthScore hc now m) as Hscore.
  { unfold calculateHealthScore, set_errors.
    cbn [totalChecks successRate averageResponseTime errors].
    change (checkInterval (cleanup now hc)) with (checkInterval hc).
    change (healthThresholds (cleanup now hc)) with (healthThresholds hc).
    rewrite recent_errors_after_cleanup by exact Hwin. reflexivity. }
  unfold getOriginStatus. fold (cleanup now hc). rewrite Hscore. reflexivity.
Qed.

Lemma cleanup_keeps_ranking_witness :
  getOriginsByHealth (cleanup 500000 checkerBothHealthy) 500000
  = getOriginsByHealth checkerBothHealthy 500000.
Proof.
  apply cleanup_keeps_ranking. vm_compute. discriminate.
Defined.

(** * Further properties of the cache *)

Section Hash.

Lemma toInt32_offset (x : Z) : exists k, CacheManager.toInt32 x = x + k * 2 ^ 32.
Proof.
  unfold CacheManager.toInt32. exists (- ((x + 2 ^ 31) / 2 ^ 32)).
  pose proof (Z.div_mod (x + 2 ^ 31) (2 ^ 32)) as H. lia.
Qed.

Lemma toInt32_shift (x k : Z) : CacheManager.toInt32 (x + k * 2 ^ 32) = CacheManager.toInt32 x.
Proof.
  unfold CacheManager.toInt32.
  replace (x + k * 2 ^ 32 + 2 ^ 31) with (x + 2 ^ 31 + k * 2 ^ 32) by lia.
  rewrite Z_mod_plus_full. reflexivity.
Qed.

Lemma toInt32_range (x : Z) : - 2 ^ 31 <= CacheManager.toInt32 x < 2 ^ 31.
Proof.
  unfold CacheManager.toInt32.
  pose proof (Z.mod_pos_bound (x + 2 ^ 31) (2 ^ 32)) as H. lia.
Qed.

Lemma simpleHash_step_polynomial (a c : Z) :
  CacheManager.simpleHash_step (CacheManager.toInt32 a) c = CacheManager.toInt32 (31 * a + c).
Proof.
  unfold CacheManager.simpleHash_step. rewrite Z.shiftl_mul_pow2 by lia.
  destruct (toInt32_offset a) as [k Hk].
  destruct (toInt32_offset (CacheManager.toInt32 a * 2 ^ 5)) as [j Hj].
  rewrite Hj, Hk.
  replace ((a + k * 2 ^ 32) * 2 ^ 5 + j * 2 ^ 32 - (a + k * 2 ^ 32) + c)
    with (31 * a + c + (31 * k + j) * 2 ^ 32) by lia.
  apply toInt32_shift.
Qed.

Lemma simpleHash_fold_polynomial (codes : list Z) (a : Z) :
  fold_left CacheManager.simpleHash_step codes (CacheManager.toInt32 a)
  = CacheManager.toInt32 (fold_left (fun h c => 31 * h + c) codes a).
Proof.
  revert a. induction codes as [| c codes IH]; intros a; [reflexivity |].
  cbn [fold_left]. rewrite simpleHash_step_polynomial. apply IH.
Qed.

End Hash.

(** X24. The number [simpleHash] renders is the polynomial hash of the
    string's character codes with multiplier 31, reduced to a signed 32-bit
    integer: the shift-and-subtract loop never leaves the 32-bit range and
    loses nothing but multiples of 2^32. *)
Theorem simpleHash_is_polynomial_hash (str : string) :
  CacheManager.simpleHash_loop str
  = CacheManager.toInt32 (CacheManager.polynomial31 (CacheManager.charCodes str))
  /\ - 2 ^ 31 <= CacheManager.simpleHash_loop str < 2 ^ 31.
Proof.
  unfold CacheManager.simpleHash_loop, CacheManager.polynomial31.
  pose proof (simpleHash_fold_polynomial (CacheManager.charCodes str) 0) as H.
  change (CacheManager.toInt32 0) with 0 in H. rewrite H.
  split; [reflexivity | apply toInt32_range].
Qed.

Section TimeToLive.
Import CacheManager.

Lemma calculateTTL_capped (maxTTL now : Z) (dateTime : string -> option Z)
    (response : Response) (strategy : Strategy) :
  calculateTTL maxTTL now dateTime response strategy <= maxTTL.
Proof.
  unfold calculateTTL.
  repeat match goal with
         | |- context [match ?c with Some _ => _ | None => _ end] => destruct c
         | |- context [if ?c then _ else _] => destruct c
         end; apply Z.le_min_r.
Qed.

Lemma cacheData_fresh_past_expiry (maxTTL now : Z) (dateTime : string -> option Z)
    (response : Response) :
  expiresAt (cacheData maxTTL now dateTime response)
  <= freshUntil (cacheData maxTTL now dateTime response).
Proof.
  unfold cacheData. cbn [expiresAt freshUntil].
  set (strategy := getCacheStrategy _).
  unfold extractMaxAge, calculateTTL.
  destruct (match_digits_after "max-age=" _) as [digits |].
  - destruct (parseInt digits) as [n |]; cbn [or_Z].
    + destruct (Z.eqb_spec n 0) as [-> | Hn]; [lia |].
      pose proof (Z.le_min_l n maxTTL). lia.
    + lia.
  - cbn [or_Z]. lia.
Qed.

End TimeToLive.

Lemma set_accepts_only_eligible_status
    (env : CacheManager.Collaborators) (url : string) (response : CacheManager.Response)
    (context : CacheManager.Context) :
  CacheManager.set env url response context = true ->
  200 <= CacheManager.status response <= 299 \/ CacheManager.status response = 404.
Proof.
  unfold CacheManager.set. intros Hset.
  destruct (CacheManager.isCacheable response _) eqn:E; [| discriminate].
  exact (proj1 (isCacheable_requires response _ E)).
Qed.

(** X26. In every entry [set] writes the fresh-until time is not before the
    expiry time; since [get] drops an entry once the expiry time has
    passed, no response [get] builds from such an entry is flagged stale. *)
Theorem stored_entries_are_never_served_stale
    (env : CacheManager.Collaborators) (maxTTL storedAt : Z) (dateTime : string -> option Z)
    (cacheKey url : string) (response : CacheManager.Response)
    (context : CacheManager.Context) (kv : gmap string CacheManager.Entry)
    (now : Z) (hit : CacheManager.Hit) :
  CacheManager.set env url response context = true ->
  fst (CacheManager.get now cacheKey
         (CacheManager.storeAfterSet env maxTTL storedAt dateTime cacheKey url response
            context kv)) = Some hit ->
  CacheManager.expiresAt (CacheManager.cacheData maxTTL storedAt dateTime response)
  <= CacheManager.freshUntil (CacheManager.cacheData maxTTL storedAt dateTime response)
  /\ CacheManager.hitStale hit = false.
Proof.
  intros Hset Hget.
  pose proof (cacheData_fresh_past_expiry maxTTL storedAt dateTime response) as Hfresh.
  split; [exact Hfresh |].
  unfold CacheManager.storeAfterSet in Hget. rewrite Hset in Hget.
  unfold CacheManager.get in Hget. rewrite lookup_insert_eq in Hget.
  destruct (Z.gtb_spec now
              (CacheManager.expiresAt (CacheManager.cacheData maxTTL storedAt dateTime response)))
    as [Hexp | Hlive]; [discriminate |].
  destruct (CacheManager.responseThrows _); [discriminate |].
  cbn [fst] in Hget. injection Hget as <-. cbn [CacheManager.hitStale].
  rewrite Z.gtb_ltb. apply Z.ltb_ge.
  etransitivity; [exact Hlive | exact Hfresh].
Qed.

(** X27. A response [set] has stored is what [get] serves under the same
    key until its expiry time, with the stored status and headers, the age
    in whole seconds since it was stored and the seconds left, unless its
    status is 204 or 205: then rebuilding the response fails and [get]
    answers [null], the entry staying in the store.  After the expiry time
    [get] answers [null] and deletes the entry. *)
Theorem set_then_get_round_trip
    (env : CacheManager.Collaborators) (maxTTL storedAt : Z) (dateTime : string -> option Z)
    (cacheKey url : string) (response : CacheManager.Response)
    (context : CacheManager.Context) (kv : gmap string CacheManager.Entry) (now : Z) :
  CacheManager.set env url response context = true ->
  let kv' := CacheManager.storeAfterSet env maxTTL storedAt dateTime cacheKey url response
               context kv in
  let expiry := storedAt
                + CacheManager.calculateTTL maxTTL storedAt dateTime response
                    (CacheManager.getCacheStrategy
                       (CacheManager.or_string
                          (CacheManager.headers_get response "content-type") "default"))
                  * 1000 in
  (now <= expiry ->
   CacheManager.status response <> 204 -> CacheManager.status response <> 205 ->
   exists hit,
     CacheManager.get now cacheKey kv' = (Some hit, kv')
     /\ CacheManager.hitStatus hit = CacheManager.status response
     /\ CacheManager.hitHeaders hit = CacheManager.headers response
     /\ CacheManager.hitAge hit = (now - storedAt) / 1000
     /\ CacheManager.hitTTL hit = (expiry - now) / 1000)
  /\ (now <= expiry ->
      CacheManager.status response = 204 \/ CacheManager.status response = 205 ->
      CacheManager.get now cacheKey kv' = (None, kv'))
  /\ (expiry < now ->
      CacheManager.get now cacheKey kv' = (None, delete cacheKey kv')
      /\ fst (CacheManager.get now cacheKey (delete cacheKey kv')) = None).
Proof.
  intros Hset kv' expiry. subst kv'.
  pose proof (set_accepts_only_eligible_status env url response context Hset) as Hstatus.
  unfold CacheManager.storeAfterSet. rewrite Hset.
  unfold CacheManager.get. rewrite lookup_insert_eq.
  change (CacheManager.expiresAt (CacheManager.cacheData maxTTL storedAt dateTime response))
    with expiry.
  change (CacheManager.entryStatus (CacheManager.cacheData maxTTL storedAt dateTime response))
    with (CacheManager.status response).
  split; [| split].
  - intros Hlive H204 H205. destruct (Z.gtb_spec now expiry); [lia |].
    assert (CacheManager.responseThrows (CacheManager.status response) = false) as ->.
    { unfold CacheManager.responseThrows.
      repeat match goal with
             | |- context [?a <? ?b] => destruct (Z.ltb_spec a b)
             | |- context [?a =? ?b] => destruct (Z.eqb_spec a b)
             end; cbn; try reflexivity; lia. }
    eexists. split; [reflexivity |]. repeat split.
  - intros Hlive Hnull. destruct (Z.gtb_spec now expiry); [lia |].
    assert (CacheManager.responseThrows (CacheManager.status response) = true) as ->;
      [| reflexivity].
    unfold CacheManager.responseThrows.
    destruct Hnull as [-> | ->]; reflexivity.
  - intros Hdead. destruct (Z.gtb_spec now expiry); [| lia].
    split; [reflexivity |]. rewrite lookup_delete_eq. reflexivity.
Qed.

Section CacheWitnesses.
Import MoreFixtures.

Lemma stored_entries_are_never_served_stale_witness :
  CacheManager.expiresAt (CacheManager.cacheData 86400 1000 noDate htmlResponse)
  <= CacheManager.freshUntil (CacheManager.cacheData 86400 1000 noDate htmlResponse)
  /\ CacheManager.hitStale hitHtml = false.
Proof.
  apply (stored_entries_are_never_served_stale collaboratorsOk 86400 1000 noDate "k"
           "https://edge.example/a" htmlResponse cacheContext0 ∅ 5000 hitHtml).
  - vm_compute. reflexivity.
  - vm_compute. reflexivity.
Defined.

Lemma set_then_get_round_trip_witness :
  CacheManager.get 5000 "k" storeWithHtml = (Some hitHtml, storeWithHtml)
  /\ CacheManager.get 61001 "k" storeWithHtml = (None, delete "k" storeWithHtml)
  /\ CacheManager.get 5000 "k"
       (CacheManager.storeAfterSet collaboratorsOk 86400 1000 noDate "k"
          "https://edge.example/a" noContentResponse cacheContext0 ∅)
     = (None,
        CacheManager.storeAfterSet collaboratorsOk 86400 1000 noDate "k"
          "https://edge.example/a" noContentResponse cacheContext0 ∅).
Proof.
  destruct (set_then_get_round_trip collaboratorsOk 86400 1000 noDate "k"
              "https://edge.example/a" htmlResponse cacheContext0 ∅ 61001) as (_ & _ & Hdead).
  { vm_compute. reflexivity. }
  destruct (set_then_get_round_trip collaboratorsOk 86400 1000 noDate "k"
              "https://edge.example/a" noContentResponse cacheContext0 ∅ 5000)
    as (_ & Hnull & _).
  { vm_compute. reflexivity. }
  split; [| split].
  - vm_compute. reflexivity.
  - apply Hdead. vm_compute. reflexivity.
  - apply Hnull; [vm_compute; discriminate | left; reflexivity].
Defined.

End CacheWitnesses.

Section MaxAgeDigits.
Import CacheManager.

Lemma is_digit_spec (c : ascii) :
  is_digit c = true ->
  is_space c = false
  /\ c <> "-"%char /\ c <> "+"%char /\ c <> "x"%char /\ c <> "X"%char
  /\ exists d, digit_of 10 c = Some d /\ 0 <= d <= 9.
Proof.
  intros H.
  destruct c as [[] [] [] [] [] [] [] []]; vm_compute in H; try discriminate H;
    (split; [reflexivity |]); repeat (split; [discriminate |]);
    eexists; (split; [vm_compute; reflexivity | lia]).
Qed.

Lemma digits_of_decimal (s : string) (acc : option Z) :
  Forall (fun c => is_digit c = true) (list_ascii_of_string s) ->
  (forall a, acc = Some a -> 0 <= a) ->
  (s <> "" \/ acc <> None) ->
  exists n, digits 10 acc s = Some n /\ 0 <= n.
Proof.
  revert acc. induction s as [| c s IH]; intros acc Hall Hacc Hne.
  - cbn. destruct acc as [a |]; [| destruct Hne; congruence].
    exists a. split; [reflexivity | apply Hacc; reflexivity].
  - cbn [list_ascii_of_string] in Hall. inversion Hall as [| ? ? Hc Hrest]; subst.
    destruct (is_digit_spec c Hc) as (_ & _ & _ & _ & _ & d & Hd & Hrange).
    cbn [digits]. rewrite Hd. apply IH; [exact Hrest | | right; discriminate].
    intros a E. injection E as <-.
    assert (0 <= or_Z acc 0) as Hpos.
    { unfold or_Z. destruct acc as [a |]; [| lia].
      specialize (Hacc a eq_refl). destruct (a =? 0); lia. }
    lia.
Qed.

Lemma parseInt_decimal (s : string) :
  s <> "" ->
  Forall (fun c => is_digit c = true) (list_ascii_of_string s) ->
  exists n, parseInt s = Some n /\ 0 <= n.
Proof.
  intros Hne Hall. destruct s as [| c s]; [congruence |].
  cbn [list_ascii_of_string] in Hall. inversion Hall as [| ? ? Hc Hrest]; subst.
  destruct (is_digit_spec c Hc) as (Hsp & Hminus & Hplus & _).
  destruct (digits_of_decimal (String c s) None Hall) as (n & Hn & Hpos);
    [discriminate | left; discriminate |].
  assert (forall rest : string,
             match rest with
             | String "x"%char _ | String "X"%char _ => False
             | _ => True
             end ->
             (let '(radix, s3) :=
                match String c rest with
                | String "0"%char (String "x"%char r) => (16, r)
                | String "0"%char (String "X"%char r) => (16, r)
                | _ => (10, String c rest)
                end in
              (radix, s3)) = (10, String c rest)) as Hradix.
  { intros rest Hrest'.
    destruct c as [[] [] [] [] [] [] [] []]; try reflexivity.
    destruct rest as [| [[] [] [] [] [] [] [] []] r]; try reflexivity; destruct Hrest'. }
  exists n. split; [| exact Hpos].
  unfold parseInt. cbn [skip_spaces]. rewrite Hsp.
  assert ((match String c s with
           | String "-"%char rest => (-1, rest)
           | String "+"%char rest => (1, rest)
           | _ => (1, String c s)
           end) = (1, String c s)) as ->.
  { destruct c as [[] [] [] [] [] [] [] []]; try reflexivity; congruence. }
  specialize (Hradix s).
  assert (match s with
          | String "x"%char _ | String "X"%char _ => False
          | _ => True
          end) as Hs.
  { destruct s as [| c' s']; [exact I |].
    cbn [list_ascii_of_string] in Hrest. inversion Hrest as [| ? ? Hc' _]; subst.
    destruct (is_digit_spec c' Hc') as (_ & _ & _ & Hx & HX & _).
    destruct c' as [[] [] [] [] [] [] [] []]; try exact I; congruence. }
  specialize (Hradix Hs). cbv zeta in Hradix.
  destruct (match String c s with
            | String "0"%char (String "x"%char r) => (16, r)
            | String "0"%char (String "X"%char r) => (16, r)
            | _ => (10, String c s)
            end) as [radix s3].
  injection Hradix as -> ->. rewrite Hn. f_equal. lia.
Qed.

Lemma leading_digits_decimal (s : string) :
  Forall (fun c => is_digit c = true) (list_ascii_of_string (leading_digits s)).
Proof.
  induction s as [| c s IH]; cbn; [constructor |].
  destruct (is_digit c) eqn:E; cbn; constructor; assumption.
Qed.

Lemma match_digits_after_decimal (name s digits : string) :
  match_digits_after name s = Some digits ->
  digits <> "" /\ Forall (fun c => is_digit c = true) (list_ascii_of_string digits).
Proof.
  assert (forall t d,
             (if String.prefix name t
              then
                if String.eqb
                     (leading_digits (String.substring (String.length name)
                                        (String.length t - String.length name) t)) ""
                then None
                else Some (leading_digits (String.substring (String.length name)
                                             (String.length t - String.length name) t))
              else None) = Some d ->
             d <> "" /\ Forall (fun c => is_digit c = true) (list_ascii_of_string d)) as Hhere.
  { intros t d. destruct (String.prefix name t); [| discriminate].
    destruct (String.eqb_spec
                (leading_digits (String.substring (String.length name)
                                   (String.length t - String.length name) t)) "");
      [discriminate |].
    intros E. injection E as <-. split; [assumption | apply leading_digits_decimal]. }
  induction s as [| c s IH]; intros Hm.
  - change (match_digits_after name "")
      with (match
               (if String.prefix name ""
                then
                  if String.eqb
                       (leading_digits (String.substring (String.length name)
                                          (String.length "" - String.length name) "")) ""
                  then None
                  else Some (leading_digits (String.substring (String.length name)
                                               (String.length "" - String.length name) ""))
                else None)
             with
             | Some d => Some d
             | None => None
             end) in Hm.
    match type of Hm with
    | match ?h with Some _ => _ | None => _ end = _ => destruct h as [d |] eqn:E
    end; [| discriminate].
    injection Hm as <-. exact (Hhere _ _ E).
  - change (match_digits_after name (String c s))
      with (match
               (if String.prefix name (String c s)
                then
                  if String.eqb
                       (leading_digits (String.substring (String.length name)
                                          (String.length (String c s) - String.length name)
                                          (String c s))) ""
                  then None
                  else Some (leading_digits (String.substring (String.length name)
                                               (String.length (String c s) - String.length name)
                                               (String c s)))
                else None)
             with
             | Some d => Some d
             | None => match_digits_after name s
             end) in Hm.
    match type of Hm with
    | match ?h with Some _ => _ | None => _ end = _ => destruct h as [d |] eqn:E
    end; [| exact (IH Hm)].
    injection Hm as <-. exact (Hhere _ _ E).
Qed.

Lemma calculateTTL_nonnegative (maxTTL now : Z) (dateTime : string -> option Z)
    (response : Response) (strategy : Strategy) :
  0 <= maxTTL -> 0 <= ttl strategy ->
  0 <= calculateTTL maxTTL now dateTime response strategy.
Proof.
  intros Hmax Hstrategy. unfold calculateTTL.
  destruct (match_digits_after "max-age=" _) as [digits |] eqn:E.
  - destruct (match_digits_after_decimal _ _ _ E) as [Hne Hall].
    destruct (parseInt_decimal digits Hne Hall) as (n & -> & Hn). lia.
  - repeat match goal with
           | |- context [match ?c with Some _ => _ | None => _ end] => destruct c
           | |- context [if ?c then _ else _] => destruct c eqn:?
           end; lia.
Qed.

End MaxAgeDigits.

Section Strategies.
Import CacheManager.

Lemma prefix_app (p s : string) : String.prefix p (p +:+ s) = true.
Proof.
  induction p as [| c p IH].
  - destruct s; reflexivity.
  - change (String c p +:+ s) with (String c (p +:+ s)).
    change (String.prefix (String c p) (String c (p +:+ s)))
      with (if ascii_dec c c then String.prefix p (p +:+ s) else false).
    destruct (ascii_dec c c); [exact IH | congruence].
Qed.

Lemma getCacheStrategy_ttl_positive (contentType : string) :
  0 < ttl (getCacheStrategy contentType).
Proof.
  unfold getCacheStrategy, cacheStrategies. cbn [List.find].
  repeat match goal with
         | |- context [if ?c then _ else _] => destruct c
         end; cbn; lia.
Qed.

End Strategies.

(** X25. The time to live [calculateTTL] resolves never exceeds the global
    maximum, whichever of [max-age], [Expires] or the content-type strategy
    decides it, so the [expirationTtl] handed to the store is that time to
    live itself; and with a non-negative maximum and the strategy of the
    response's content type it is never negative. *)
Theorem calculateTTL_within_zero_and_maximum
    (maxTTL now : Z) (dateTime : string -> option Z) (response : CacheManager.Response) :
  let strategy :=
    CacheManager.getCacheStrategy
      (CacheManager.or_string (CacheManager.headers_get response "content-type") "default") in
  CacheManager.calculateTTL maxTTL now dateTime response strategy <= maxTTL
  /\ CacheManager.expirationTtl maxTTL now dateTime response
     = CacheManager.calculateTTL maxTTL now dateTime response strategy
  /\ (0 <= maxTTL -> 0 <= CacheManager.calculateTTL maxTTL now dateTime response strategy).
Proof.
  intros strategy. split; [apply calculateTTL_capped |]. split.
  - unfold CacheManager.expirationTtl. apply Z.min_l, calculateTTL_capped.
  - intros Hmax. apply calculateTTL_nonnegative; [exact Hmax |].
    pose proof (getCacheStrategy_ttl_positive
                  (CacheManager.or_string (CacheManager.headers_get response "content-type")
                     "default")).
    unfold strategy. lia.
Qed.

(** X28. [set] stores every eligible response when its collaborators
    return: a status that is 2xx or 404, a cache-control without [no-store]
    and [no-cache], authorization and set-cookie absent or empty, and a
    content-length that is absent, not a number or at most 10 MiB make
    [set] resolve to [true]. *)
Theorem set_accepts_every_eligible_response
    (env : CacheManager.Collaborators) (url : string) (r : CacheManager.Response)
    (context : CacheManager.Context) :
  CacheManager.persist env = Ok tt ->
  (200 <= CacheManager.status r <= 299 \/ CacheManager.status r = 404) ->
  (forall cc, CacheManager.headers r !! "cache-control" = Some cc ->
     includes cc "no-store" = false /\ includes cc "no-cache" = false) ->
  (forall v, CacheManager.headers r !! "authorization" = Some v -> v = "") ->
  (forall v, CacheManager.headers r !! "set-cookie" = Some v -> v = "") ->
  (forall v n, CacheManager.headers r !! "content-length" = Some v ->
     parseInt v = Some n -> n <= CacheManager.sizeLimit) ->
  CacheManager.set env url r context = true.
Proof.
  intros Hpersist Hstatus Hcc Hauth Hcookie Hlen.
  unfold CacheManager.set. rewrite Hpersist.
  assert (CacheManager.isCacheable r
            (CacheManager.getCacheStrategy
               (CacheManager.or_string (CacheManager.headers_get r "content-type") "default"))
          = true) as ->; [| reflexivity].
  unfold CacheManager.isCacheable, CacheManager.headers_get, CacheManager.ok.
  assert (negb ((200 <=? CacheManager.status r) && (CacheManager.status r <=? 299))
          && negb (CacheManager.status r =? 404) = false) as ->.
  { destruct Hstatus as [[H1 H2] | ->]; [| rewrite andb_false_r; reflexivity].
    apply Z.leb_le in H1, H2. rewrite H1, H2. reflexivity. }
  assert (includes (CacheManager.or_string (CacheManager.headers r !! "cache-control") "")
            "no-cache"
          || includes (CacheManager.or_string (CacheManager.headers r !! "cache-control") "")
               "no-store" = false) as ->.
  { destruct (CacheManager.headers r !! "cache-control") as [cc |] eqn:E.
    - rewrite or_string_empty_default. destruct (Hcc cc eq_refl) as [-> ->]. reflexivity.
    - reflexivity. }
  assert (forall h, (forall v, h = Some v -> v = "") -> truthy_str h = false) as Hfalsy.
  { intros [v |] Hv; [| reflexivity]. rewrite (Hv v eq_refl). reflexivity. }
  rewrite (Hfalsy _ Hauth), (Hfalsy _ Hcookie). cbn [orb].
  destruct (CacheManager.headers r !! "content-length") as [v |] eqn:E; [| reflexivity].
  destruct (String.eqb_spec v "") as [-> | Hne]; [reflexivity |].
  rewrite (or_string_nonempty v "0" Hne).
  destruct (parseInt v) as [n |] eqn:En; [| reflexivity].
  specialize (Hlen v n eq_refl En).
  destruct (Z.gtb_spec n CacheManager.sizeLimit); [lia | reflexivity].
Qed.

Lemma set_accepts_every_eligible_response_witness :
  CacheManager.set collaboratorsOk "https://edge.example/a" htmlResponse cacheContext0 = true.
Proof.
  apply set_accepts_every_eligible_response.
  - reflexivity.
  - left. vm_compute. split; discriminate.
  - intros cc Hcc. vm_compute in Hcc. injection Hcc as <-. split; vm_compute; reflexivity.
  - intros v Hv. vm_compute in Hv. discriminate.
  - intros v Hv. vm_compute in Hv. discriminate.
  - intros v n Hv Hn. vm_compute in Hv. injection Hv as <-.
    vm_compute in Hn. injection Hn as <-. vm_compute. discriminate.
Defined.

(** X29. The strategy depends on the content type through its prefix only:
    whatever follows [text/html], [text/css], [application/javascript],
    [application/json], [image/] or [font/] (a charset parameter, a
    subtype), the time to live is the one of that family, and a content type
    with none of these prefixes gets the default of one hour. *)
Theorem getCacheStrategy_by_prefix (suffix contentType : string) :
  CacheManager.ttl (CacheManager.getCacheStrategy ("text/html" +:+ suffix)) = 3600
  /\ CacheManager.ttl (CacheManager.getCacheStrategy ("text/css" +:+ suffix)) = 86400
  /\ CacheManager.ttl (CacheManager.getCacheStrategy ("application/javascript" +:+ suffix))
     = 86400
  /\ CacheManager.ttl (CacheManager.getCacheStrategy ("application/json" +:+ suffix)) = 1800
  /\ CacheManager.ttl (CacheManager.getCacheStrategy ("image/" +:+ suffix)) = 604800
  /\ CacheManager.ttl (CacheManager.getCacheStrategy ("font/" +:+ suffix)) = 2592000
  /\ (Forall (fun p => startsWith contentType p = false)
        ["text/html"; "text/css"; "application/javascript"; "application/json"; "image/";
         "font/"] ->
      CacheManager.ttl (CacheManager.getCacheStrategy contentType) = 3600).
Proof.
  unfold CacheManager.getCacheStrategy, CacheManager.cacheStrategies, startsWith.
  cbn [List.find].
  repeat split.
  - rewrite (prefix_app "text/html" suffix). reflexivity.
  - change (String.prefix "text/html" ("text/css" +:+ suffix)) with false.
    rewrite (prefix_app "text/css" suffix). reflexivity.
  - change (String.prefix "text/html" ("application/javascript" +:+ suffix)) with false.
    change (String.prefix "text/css" ("application/javascript" +:+ suffix)) with false.
    rewrite (prefix_app "application/javascript" suffix). reflexivity.
  - change (String.prefix "text/html" ("application/json" +:+ suffix)) with false.
    change (String.prefix "text/css" ("application/json" +:+ suffix)) with false.
    change (String.prefix "application/javascript" ("application/json" +:+ suffix)) with false.
    rewrite (prefix_app "application/json" suffix). reflexivity.
  - change (String.prefix "text/html" ("image/" +:+ suffix)) with false.
    change (String.prefix "text/css" ("image/" +:+ suffix)) with false.
    change (String.prefix "application/javascript" ("image/" +:+ suffix)) with false.
    change (String.prefix "application/json" ("image/" +:+ suffix)) with false.
    rewrite (prefix_app "image/" suffix). reflexivity.
  - change (String.prefix "text/html" ("font/" +:+ suffix)) with false.
    change (String.prefix "text/css" ("font/" +:+ suffix)) with false.
    change (String.prefix "application/javascript" ("font/" +:+ suffix)) with false.
    change (String.prefix "application/json" ("font/" +:+ suffix)) with false.
    change (String.prefix "image/" ("font/" +:+ suffix)) with false.
    rewrite (prefix_app "font/" suffix). reflexivity.
  - intros Hnone.
    repeat match goal with
           | H : Forall _ (_ :: _) |- _ => inversion H; subst; clear H
           end.
    unfold startsWith in *.
    repeat match goal with
           | H : String.prefix _ contentType = false |- _ => rewrite H; clear H
           end.
    destruct (String.prefix "default" contentType); reflexivity.
Qed.

Section Pools.
Import PingOptimizer.

Lemma optimizeConnection_bounded (now : Z) (key : string) (pools : gmap string Pool) :
  map_Forall (fun _ p => maxConnections p = 100 /\ 1 <= connections p <= 100) pools ->
  map_Forall (fun _ p => maxConnections p = 100 /\ 1 <= connections p <= 100)
    (optimizeConnection now key pools).
Proof.
  intros Hall. unfold optimizeConnection.
  apply map_Forall_insert_2; [| exact Hall].
  cbn [maxConnections connections].
  assert (maxConnections
            (match pools !! key with
             | Some p => p
             | None => {| connections := 0; maxConnections := 100;
                          keepAliveTimeout := 30000; lastUsed := now |}
             end) = 100
          /\ 0 <= connections
                    (match pools !! key with
                     | Some p => p
                     | None => {| connections := 0; maxConnections := 100;
                                  keepAliveTimeout := 30000; lastUsed := now |}
                     end) <= 100) as [Hmax Hconn].
  { destruct (pools !! key) as [p |] eqn:E.
    - destruct (Hall key p E) as [H1 H2]. split; [exact H1 | lia].
    - cbn. split; [reflexivity | lia]. }
  rewrite Hmax. split; [reflexivity |].
  match goal with
  | |- context [?a >? 100] => destruct (Z.gtb_spec a 100)
  end.
  - change (Math_floor (inject_Z 100 * (8 # 10))) with 80. lia.
  - lia.
Qed.

End Pools.

(** X30. However many connections are opened, starting from no pool, every
    pool holds between 1 and 100 connections and keeps the limit of 100: a
    pool that would pass the limit falls back to 80. *)
Theorem connection_pools_stay_within_limit
    (calls : list (Z * string)) (key : string) (p : PingOptimizer.Pool) :
  PingOptimizer.optimizeAll calls ∅ !! key = Some p ->
  PingOptimizer.maxConnections p = 100 /\ 1 <= PingOptimizer.connections p <= 100.
Proof.
  assert (forall pools,
             map_Forall (fun _ p => PingOptimizer.maxConnections p = 100
                                    /\ 1 <= PingOptimizer.connections p <= 100) pools ->
             map_Forall (fun _ p => PingOptimizer.maxConnections p = 100
                                    /\ 1 <= PingOptimizer.connections p <= 100)
               (PingOptimizer.optimizeAll calls pools)) as Hrun.
  { unfold PingOptimizer.optimizeAll.
    induction calls as [| [now k] calls IH]; intros pools Hall; cbn [fold_left];
      [exact Hall |].
    apply IH, optimizeConnection_bounded, Hall. }
  intros Hlook. exact (Hrun ∅ (map_Forall_empty _) key p Hlook).
Qed.

Lemma connection_pools_stay_within_limit_witness :
  exists p,
    PingOptimizer.optimizeAll [(1000, "a.example"); (1200, "a.example")] ∅ !! "a.example"
    = Some p
    /\ PingOptimizer.connections p = 2
    /\ PingOptimizer.maxConnections p = 100 /\ 1 <= PingOptimizer.connections p <= 100.
Proof.
  eexists. split; [vm_compute; reflexivity |]. split; [reflexivity |].
  eapply (connection_pools_stay_within_limit [(1000, "a.example"); (1200, "a.example")]
            "a.example").
  vm_compute. reflexivity.
Defined.
